(** * Market-data ingestion: stream client, metrics, collectors, order book

    A shallow embedding of [feed.py], [metrics.py], the two collectors and
    [get_plot_data] of [plot_live.py] and the collector of
    [latency_live.py], together with the order-book store that
    [tests/test_orderbook.py] exercises.

    Conventions of the embedding.
    - A decoded message is a Python [dict] with string keys: a
      [gmap string value].
    - Python [int] is [Z].  Python [float] is read as an exact rational
      ([Qc], canonical rationals with Leibniz equality): rounding, infinities
      and NaN of IEEE doubles are outside the model.
    - Code that can raise returns a [result]; code that mutates module-level
      buffers threads them explicitly and returns the buffers reached when
      the exception left the function. *)

From Stdlib Require Import ZArith QArith Qcanon Lia Lqa Ascii String.
From stdpp Require Import base option numbers list strings gmap fin_maps sorting.

#[local] Open Scope Z_scope.

(** ** Python values, exceptions, dictionaries *)

Module Py.

Inductive value :=
| VInt (z : Z)
| VFloat (x : Qc)
| VStr (s : string)
| VNone.

Inductive exn :=
| KeyError (k : string)
| ValueError
| TypeError
| ZeroDivisionError
| JSONDecodeError
| ConnectionClosedError
| InvalidStatusCode
| OtherError (tag : string).

Inductive result (A : Type) :=
| Ok (a : A)
| Raise (e : exn).
Arguments Ok {A} a.
Arguments Raise {A} e.

Definition bind {A B} (m : result A) (k : A -> result B) : result B :=
  match m with
  | Ok a => k a
  | Raise e => Raise e
  end.

#[global] Instance result_bind : MBind result := fun A B k m => bind m k.
#[global] Instance result_ret : MRet result := fun A a => Ok a.

Definition is_ok {A} (m : result A) : bool :=
  match m with Ok _ => true | Raise _ => false end.

(** [d[k]] *)
Definition getitem (d : gmap string value) (k : string) : result value :=
  match d !! k with
  | Some v => Ok v
  | None => Raise (KeyError k)
  end.

(** [s * n] on strings: [n] copies of [s], none when [n <= 0]. *)
Fixpoint str_repeat (n : nat) (s : string) : string :=
  match n with
  | O => EmptyString
  | S n' => String.append s (str_repeat n' s)
  end.

(** [v * k] for an integer literal [k]. *)
Definition mul_int (v : value) (k : Z) : result value :=
  match v with
  | VInt z => Ok (VInt (z * k))
  | VFloat x => Ok (VFloat (x * Qc_of_Z k))
  | VStr s => Ok (VStr (str_repeat (Z.to_nat k) s))
  | VNone => Raise TypeError
  end.

(** [v >= c] for an integer [c]. *)
Definition ge_int (v : value) (c : Z) : result bool :=
  match v with
  | VInt z => Ok (c <=? z)
  | VFloat x => Ok (bool_decide (Qc_of_Z c ≤ x)%Qc)
  | VStr _ => Raise TypeError
  | VNone => Raise TypeError
  end.

(** [v / k] for a float literal [k] (true division). *)
Definition div_float (v : value) (k : Qc) : result Qc :=
  match v with
  | VInt z => if bool_decide (k = 0%Qc) then Raise ZeroDivisionError
              else Ok (Qc_of_Z z / k)%Qc
  | VFloat x => if bool_decide (k = 0%Qc) then Raise ZeroDivisionError
                else Ok (x / k)%Qc
  | VStr _ => Raise TypeError
  | VNone => Raise TypeError
  end.

(** [v - w] *)
Definition sub (v w : value) : result value :=
  match v, w with
  | VInt a, VInt b => Ok (VInt (a - b))
  | VInt a, VFloat y => Ok (VFloat (Qc_of_Z a - y))
  | VFloat x, VInt b => Ok (VFloat (x - Qc_of_Z b))
  | VFloat x, VFloat y => Ok (VFloat (x - y))
  | _, _ => Raise TypeError
  end.

(** [l[i:]] *)
Definition slice_from {A} (i : Z) (l : list A) : list A :=
  if i <? 0
  then drop (Z.to_nat (Z.max 0 (Z.of_nat (length l) + i))) l
  else drop (Z.to_nat i) l.

(** [not l] on a list *)
Definition is_empty {A} (l : list A) : bool :=
  match l with [] => true | _ :: _ => false end.

Section Float.
(** The builtin [float] applied to a [str]; [None] stands for
    [ValueError]. *)
Variable float_of_str : string -> option Qc.

(** [float(v)] *)
Definition float (v : value) : result Qc :=
  match v with
  | VInt z => Ok (Qc_of_Z z)
  | VFloat x => Ok x
  | VStr s => match float_of_str s with
              | Some x => Ok x
              | None => Raise ValueError
              end
  | VNone => Raise TypeError
  end.
End Float.

(** [sum(f(x) for x in l)], accumulating left to right from [acc]; the
    first element on which [f] raises ends the sum. *)
Fixpoint sum_gen {A} (f : A -> result Qc) (l : list A) (acc : Qc) : result Qc :=
  match l with
  | [] => Ok acc
  | x :: l' => v ← f x; sum_gen f l' (acc + v)%Qc
  end.

(** *** Plain decimal literals

    The part of [float] on strings that the feed needs: an optional
    sign, digits, and an optional fractional part ([12], [-3.50], [.5],
    [7.]).  It instantiates [float_of_str] where a property is run on
    concrete messages. *)

Definition digit_of_ascii (c : ascii) : option Z :=
  let n := Z.of_nat (nat_of_ascii c) in
  if (48 <=? n) && (n <=? 57) then Some (n - 48) else None.

(** Reads the leading digits of [s]: their value on top of [acc], how
    many there were, and the rest of the string. *)
Fixpoint read_digits (s : string) (acc : Z) (count : nat) : Z * nat * string :=
  match s with
  | EmptyString => (acc, count, EmptyString)
  | String c s' =>
      match digit_of_ascii c with
      | Some d => read_digits s' (10 * acc + d) (S count)
      | None => (acc, count, s)
      end
  end.

Definition unsigned_decimal (s : string) : option Qc :=
  let '(int_part, n_int, rest) := read_digits s 0 O in
  match rest with
  | EmptyString => if Nat.eqb n_int 0 then None else Some (Qc_of_Z int_part)
  | String c rest' =>
      if Ascii.eqb c "."%char then
        let '(frac_part, n_frac, rest'') := read_digits rest' 0 O in
        match rest'' with
        | EmptyString =>
            if Nat.eqb (n_int + n_frac) 0 then None
            else Some (Qc_of_Z int_part
                       + Qc_of_Z frac_part / Qc_of_Z (10 ^ Z.of_nat n_frac))%Qc
        | String _ _ => None
        end
      else None
  end.

Definition float_of_decimal (s : string) : option Qc :=
  match s with
  | String c s' =>
      if Ascii.eqb c "-"%char then Qcopp <$> unsigned_decimal s'
      else unsigned_decimal s
  | EmptyString => None
  end.

End Py.

Import Py.

(** ** metrics.py *)

Module Metrics.
#[local] Open Scope Qc_scope.

Definition calculate_spread (best_bid best_ask : Qc) : option Qc :=
  if bool_decide (0 < best_bid) && bool_decide (0 < best_ask)
     && bool_decide (best_bid < best_ask)
  then Some (best_ask - best_bid)
  else None.

Definition calculate_mid_price (best_bid best_ask : Qc) : option Qc :=
  if bool_decide (0 < best_bid) && bool_decide (0 < best_ask)
     && bool_decide (best_bid < best_ask)
  then Some ((best_ask + best_bid) / 2)
  else None.

Definition calculate_order_book_imbalance (bid_volume ask_volume : Qc) : option Qc :=
  let total_volume := bid_volume + ask_volume in
  if bool_decide (0 < total_volume)
  then Some ((bid_volume - ask_volume) / total_volume)
  else None.

Section WithFloat.
Variable float_of_str : string -> option Qc.
#[local] Abbreviation float := (Py.float float_of_str).

(** [float(trade['p']) * float(trade['q'])] *)
Definition trade_value (trade : gmap string value) : result Qc :=
  vp ← getitem trade "p";
  p ← float vp;
  vq ← getitem trade "q";
  q ← float vq;
  Ok (p * q).

(** [float(trade['q'])] *)
Definition trade_qty (trade : gmap string value) : result Qc :=
  vq ← getitem trade "q";
  float vq.

Definition calculate_vwap
    (trades : list (gmap string value)) (window_size_trades : Z)
  : result (option Qc) :=
  if is_empty trades || (window_size_trades <=? 0)%Z then Ok None
  else
    let relevant_trades := slice_from (- window_size_trades) trades in
    total_value ← sum_gen trade_value relevant_trades 0;
    total_volume ← sum_gen trade_qty relevant_trades 0;
    if bool_decide (total_volume = 0) then Ok None
    else Ok (Some (total_value / total_volume)).

(** The [for trade in reversed(trades)] loop, with its [break]. *)
Fixpoint volume_scan (cutoff_time_ns : Z)
    (reversed_trades : list (gmap string value)) (volume : Qc) : result Qc :=
  match reversed_trades with
  | [] => Ok volume
  | trade :: rest =>
      trade_time_ms ← getitem trade "T";
      trade_time_ns ← mul_int trade_time_ms 1000000;
      recent ← ge_int trade_time_ns cutoff_time_ns;
      if (recent : bool)
      then q ← trade_qty trade; volume_scan cutoff_time_ns rest (volume + q)
      else Ok volume
  end.

Definition calculate_trade_volume_per_second
    (trades : list (gmap string value)) (current_time_ns window_seconds : Z)
  : result Qc :=
  if is_empty trades || (window_seconds <=? 0)%Z then Ok 0
  else
    let window_ns := (window_seconds * 1000000000)%Z in
    let cutoff_time_ns := (current_time_ns - window_ns)%Z in
    volume_scan cutoff_time_ns (reverse trades) 0.

(** *** The trailing volume as the specification words it

    The sum of the quantity over all trades of the history whose
    exchange time, in nanoseconds, is at least [now_ns - window_ns]:
    a filter over the whole list followed by a sum, with no early exit. *)

Definition exchange_time_ms (trade : gmap string value) : Z :=
  match trade !! "T" with
  | Some (VInt z) => z
  | _ => 0%Z
  end.

Definition quantity (trade : gmap string value) : Qc :=
  match trade_qty trade with
  | Ok x => x
  | Raise _ => 0
  end.

Definition in_window (now_ns window_ns : Z) (trade : gmap string value) : bool :=
  (now_ns - window_ns <=? exchange_time_ms trade * 1000000)%Z.

Definition trailing_volume_spec
    (trades : list (gmap string value)) (now_ns window_ns : Z) : Qc :=
  foldr Qcplus 0 (quantity <$> filter (fun t => in_window now_ns window_ns t = true) trades).

(** A trade as the feed schema has it: integer [T], a quantity that
    [float] accepts. *)
Definition well_formed_trade (trade : gmap string value) : Prop :=
  (exists t, trade !! "T" = Some (VInt t)) /\ is_ok (trade_qty trade) = true.

End WithFloat.

(** The scenario of the module's own example block: four trades 2.5 s,
    1.8 s, 0.9 s and 0.3 s before [sample_now_ns]. *)
Definition sample_now_ns : Z := 1700000000000000000.

Definition sample_trades : list (gmap string value) :=
  [ {[ "p" := VStr "99.90"; "q" := VStr "1.0"; "T" := VInt 1699999997500 ]};
    {[ "p" := VStr "99.95"; "q" := VStr "0.5"; "T" := VInt 1699999998200 ]};
    {[ "p" := VStr "100.00"; "q" := VStr "2.0"; "T" := VInt 1699999999100 ]};
    {[ "p" := VStr "100.05"; "q" := VStr "1.5"; "T" := VInt 1699999999700 ]} ].
End Metrics.

(** ** feed.py *)

Module Feed.

(** What [orjson.loads] returns: a JSON object, read as a [dict], or any
    other JSON value (array, string, number, [true], [false], [null]). *)
Inductive json :=
| JObject (d : gmap string value)
| JOther.

(** Where the [while True] loop stands: about to call
    [websockets.connect], or inside [async for message in websocket].
    Only exceptions that derive from [Exception] are modelled ([exn]);
    cancellation of the generator is not. *)
Inductive phase := Connecting | Connected.

Record state := mkState {
  conn : phase;
  backoff_time : Z;
  clock_reads : nat   (** calls of [time.monotonic_ns] made so far *)
}.

(** The state on entry to the loop: [backoff_time = 1]. *)
Definition initial : state := mkState Connecting 1 0.

(** What the transport does next. *)
Inductive event :=
| ConnectOk                  (** [websockets.connect(uri)] succeeds *)
| ConnectFails (e : exn)     (** it raises [e] *)
| Frame (message : string)   (** the connection delivers a frame *)
| RecvFails (e : exn)        (** waiting for a frame raises [e] *)
| RecvEnds.                  (** the connection closes normally: the
                                 [async for] is exhausted *)

(** What the client does that the outside can see ([print] left out). *)
Inductive action :=
| Open                       (** entered [async with] *)
| Close                      (** left [async with] *)
| Sleep (seconds : Z)        (** [await asyncio.sleep(seconds)] *)
| Yield (data : gmap string value).

Section Client.
Variable orjson_loads : string -> result json.
(** [monotonic_ns k] is what the [k]-th call of [time.monotonic_ns]
    returns. *)
Variable monotonic_ns : nat -> Z.

(** The two [except] clauses: the first catches
    [ConnectionClosedError] and [InvalidStatusCode], the second every
    other [Exception]; both sleep [backoff_time] and then double it, up
    to 60. *)
Definition handle_exception (e : exn) (st : state) : state * list action :=
  match e with
  | ConnectionClosedError | InvalidStatusCode =>
      (mkState Connecting (Z.min (backoff_time st * 2) 60) (clock_reads st),
       [Sleep (backoff_time st)])
  | _ =>
      (mkState Connecting (Z.min (backoff_time st * 2) 60) (clock_reads st),
       [Sleep (backoff_time st)])
  end.

(** An exception raised inside [async with] leaves the connection
    before it reaches the [except] clauses. *)
Definition fail_in_session (e : exn) (st : state) : state * list action :=
  let '(st', acts) := handle_exception e st in (st', Close :: acts).

(** The body of [async for message in websocket]. *)
Definition on_message (message : string) (st : state) : state * list action :=
  let n := clock_reads st in
  let ts_before_parse := monotonic_ns n in
  match orjson_loads message with
  | Raise e =>
      fail_in_session e (mkState Connected (backoff_time st) (S n))
  | Ok JOther =>
      (* [data[...] = ...] on a value that is not a dict *)
      fail_in_session TypeError (mkState Connected (backoff_time st) (S (S n)))
  | Ok (JObject data) =>
      let ts_after_parse := monotonic_ns (S n) in
      let data := <["_ts_before_parse" := VInt ts_before_parse]> data in
      let data := <["_ts_after_parse" := VInt ts_after_parse]> data in
      let data := <["_ts_received_ws" := VInt (monotonic_ns (S (S n)))]> data in
      (mkState Connected (backoff_time st) (S (S (S n))), [Yield data])
  end.

(** One turn of the client on the next thing the transport does;
    [None] when the event cannot happen in the current phase. *)
Definition step (st : state) (ev : event) : option (state * list action) :=
  match conn st, ev with
  | Connecting, ConnectOk =>
      Some (mkState Connected 1 (clock_reads st), [Open])
  | Connecting, ConnectFails e =>
      Some (handle_exception e st)
  | Connected, Frame message =>
      Some (on_message message st)
  | Connected, RecvFails e =>
      Some (fail_in_session e st)
  | Connected, RecvEnds =>
      Some (mkState Connecting (backoff_time st) (clock_reads st), [Close])
  | _, _ => None
  end.

Fixpoint run (st : state) (script : list event) : option (state * list action) :=
  match script with
  | [] => Some (st, [])
  | ev :: script' =>
      '(st1, acts1) ← step st ev;
      '(st2, acts2) ← run st1 script';
      Some (st2, acts1 ++ acts2)
  end.

Definition reachable (st : state) : Prop :=
  ∃ script acts, run initial script = Some (st, acts).

(** In a connected session the delay is the one set on connecting. *)
Definition session_invariant (st : state) : Prop :=
  conn st = Connected → backoff_time st = 1.

(** The three stamps of an event whose pre-decode stamp is the [k]-th
    reading of the clock. *)
Definition stamped_at (k : nat) (data : gmap string value) : Prop :=
  data !! "_ts_before_parse" = Some (VInt (monotonic_ns k))
  ∧ data !! "_ts_after_parse" = Some (VInt (monotonic_ns (S k)))
  ∧ data !! "_ts_received_ws" = Some (VInt (monotonic_ns (S (S k)))).
End Client.

(** The delays slept, in order. *)
Definition sleeps (acts : list action) : list Z :=
  omap (λ a, match a with Sleep s => Some s | _ => None end) acts.

(** The events yielded, in order. *)
Definition yields (acts : list action) : list (gmap string value) :=
  omap (λ a, match a with Yield d => Some d | _ => None end) acts.

(** The delay before the retry that follows the [k]-th consecutive
    failure, counting from 0. *)
Definition backoff_delay (k : nat) : Z := Z.min (2 ^ Z.of_nat k) 60.

(** [main_trades]: the two latencies it prints. *)
Definition latency_ns (trade_data : gmap string value) : result value :=
  received ← getitem trade_data "_ts_received_ws";
  t ← getitem trade_data "T";
  t_ns ← mul_int t 1000000;
  sub received t_ns.

Definition parse_latency_ns (trade_data : gmap string value) : result value :=
  after ← getitem trade_data "_ts_after_parse";
  before ← getitem trade_data "_ts_before_parse";
  sub after before.

(** *** Decode failure as the specification words it

    The undecodable frame is dropped in place: the client stays in the
    same connection with the same backoff delay, and nothing is closed,
    slept or yielded. *)
Definition frame_dropped_in_place
    (orjson_loads : string -> result json) (monotonic_ns : nat -> Z)
    (st : state) (message : string) : Prop :=
  ∃ st', step orjson_loads monotonic_ns st (Frame message) = Some (st', [])
         ∧ conn st' = Connected
         ∧ backoff_time st' = backoff_time st.

(** A decoder and a clock to run the client on concrete frames: the
    decoder knows the empty object, a one-field trade and the empty
    array, and rejects the rest; the clock ticks 250 ns per reading. *)
Definition double_quote : string := String (ascii_of_nat 34) EmptyString.

(** The frame [{"T":5}]. *)
Definition sample_trade_frame : string :=
  String.append "{" (String.append double_quote
    (String.append "T" (String.append double_quote ":5}"))).

Definition sample_loads (message : string) : result json :=
  if String.eqb message "{}" then Ok (JObject ∅)
  else if String.eqb message sample_trade_frame then Ok (JObject {[ "T" := VInt 5 ]})
  else if String.eqb message "[]" then Ok JOther
  else Raise JSONDecodeError.

Definition sample_clock (k : nat) : Z := 1000 + 250 * Z.of_nat k.

(** What the client yields for [sample_trade_frame] when it is the first
    frame of the first connection. *)
Definition sample_event : gmap string value :=
  <["_ts_received_ws" := VInt 1500]>
    (<["_ts_after_parse" := VInt 1250]>
       (<["_ts_before_parse" := VInt 1000]> {[ "T" := VInt 5 ]})).

End Feed.

(** ** The order-book store

    [tests/test_orderbook.py] imports [OrderBook] from [orderbook.pyx],
    which is not among the sources; the tests call [update_bid],
    [update_ask], [get_best_bid], [get_best_ask], [get_bid_quantity],
    [get_ask_quantity], [get_bids], [get_asks] and
    [update_from_book_ticker]. *)

Module OrderBook.
#[local] Open Scope Qc_scope.

Inductive side := Bid | Ask.

(** Modelled from the spec: the class [OrderBook] of [orderbook.pyx] is
    missing.  Section 3 makes each side a mapping from price to quantity
    with unique keys. *)
Record store := mkStore {
  bids : gmap Qc Qc;
  asks : gmap Qc Qc
}.

Definition empty : store := mkStore ∅ ∅.

Definition levels (s : side) (st : store) : gmap Qc Qc :=
  match s with Bid => bids st | Ask => asks st end.

(** Modelled from the spec: missing [OrderBook.update_bid] and
    [update_ask].  Section 4.2, [upsert(side, price, quantity)]: if the
    quantity is [≤ 0], remove the price from the side if present (a no-op
    if absent); else insert or overwrite. *)
Definition upsert_level (price quantity : Qc) (m : gmap Qc Qc) : gmap Qc Qc :=
  if bool_decide (quantity ≤ 0) then delete price m else <[price := quantity]> m.

(** Modelled from the spec: [upsert] of section 4.2 on the side it names;
    the other side is not touched. *)
Definition upsert (s : side) (price quantity : Qc) (st : store) : store :=
  match s with
  | Bid => mkStore (upsert_level price quantity (bids st)) (asks st)
  | Ask => mkStore (bids st) (upsert_level price quantity (asks st))
  end.

(** Modelled from the spec: the missing [update_bid] and [update_ask], as
    the tests call them. *)
Definition update_bid := upsert Bid.

(** Modelled from the spec: see [update_bid]. *)
Definition update_ask := upsert Ask.

(** A sequence of [upsert] calls, applied in order. *)
Definition apply_upserts (ops : list (side * Qc * Qc)) (st : store) : store :=
  foldl (λ st op, let '(s, price, quantity) := op in upsert s price quantity st) st ops.

(** Section 3, TopOfBookUpdate: [{bid_price, bid_qty, ask_price, ask_qty}]. *)
Record top_of_book := mkTop {
  bid_price : Qc;
  bid_qty : Qc;
  ask_price : Qc;
  ask_qty : Qc
}.

(** Modelled from the spec: missing [OrderBook.update_from_book_ticker],
    on a decoded update.  Section 4.2, [apply_top_of_book(update)]:
    discards all existing levels on both sides and installs the one bid
    level and the one ask level of the update; a side whose incoming
    quantity is [≤ 0] becomes empty. *)
Definition apply_top_of_book (u : top_of_book) (st : store) : store :=
  let cleared := empty in
  upsert Ask (ask_price u) (ask_qty u)
    (upsert Bid (bid_price u) (bid_qty u) cleared).

Definition max_price (a b : Qc) : Qc := if bool_decide (a ≤ b) then b else a.
Definition min_price (a b : Qc) : Qc := if bool_decide (a ≤ b) then a else b.

(** Modelled from the spec: the extremum of the price keys of a side
    under [pick], or the sentinel [0] when the side has no key. *)
Definition extremum (pick : Qc → Qc → Qc) (m : gmap Qc Qc) : Qc :=
  match (map_to_list m).*1 with
  | [] => 0
  | price :: prices => foldr pick price prices
  end.

(** Modelled from the spec: missing [OrderBook.get_best_bid] and
    [get_best_ask].  Section 4.2, [best_bid()] / [best_ask()]: the maximum
    / minimum price key present, or [0] if the side is empty. *)
Definition best_bid (st : store) : Qc := extremum max_price (bids st).

(** Modelled from the spec: see [best_bid]; the minimum on the ask side. *)
Definition best_ask (st : store) : Qc := extremum min_price (asks st).

(** Modelled from the spec: missing [OrderBook.get_bid_quantity] and
    [get_ask_quantity].  Section 4.2, [quantity_at(side, price)]: the
    stored quantity, or [0] if absent. *)
Definition quantity_at (s : side) (price : Qc) (st : store) : Qc :=
  default 0 (levels s st !! price).

(** Section 3, PriceLevel: a level with quantity [≤ 0] does not exist in
    the store. *)
Definition positive_levels (st : store) : Prop :=
  ∀ s p q, levels s st !! p = Some q → 0 < q.

Section Message.
Variable float_of_str : string -> option Qc.

(** Modelled from the spec: the decoding step of the missing
    [update_from_book_ticker].  Section 6 names the fields [b]/[B] and
    [a]/[A]; section 9 has the decoding reject a message with a missing
    required field. *)
Definition decode_top_of_book (msg : gmap string value) : result top_of_book :=
  vb ← getitem msg "b";
  b ← float float_of_str vb;
  vB ← getitem msg "B";
  B ← float float_of_str vB;
  va ← getitem msg "a";
  a ← float float_of_str va;
  vA ← getitem msg "A";
  A ← float float_of_str vA;
  Ok (mkTop b B a A).

(** Modelled from the spec: missing [OrderBook.update_from_book_ticker] on
    a message.  Section 7: a malformed update is rejected and the prior
    state is retained; otherwise the decoded update is applied.  The
    result pairs the outcome with the store the call leaves behind. *)
Definition update_from_book_ticker (msg : gmap string value) (st : store)
  : result unit * store :=
  match decode_top_of_book msg with
  | Ok u => (Ok (), apply_top_of_book u st)
  | Raise e => (Raise e, st)
  end.
End Message.

(** The scenario of [test_update_from_book_ticker_clears_previous_top]. *)
Definition sample_book : store :=
  update_ask (Qc_of_Z 101) (Qc_of_Z 5) (update_bid (Qc_of_Z 100) (Qc_of_Z 10) empty).

Definition sample_ticker : gmap string value :=
  {[ "b" := VStr "100.5"; "B" := VStr "12.0"; "a" := VStr "101.5";
     "A" := VStr "6.0"; "s" := VStr "BTCUSDT"; "u" := VInt 12345 ]}.

End OrderBook.

(** ** plot_live.py: the book-ticker collector *)

Module PlotLive.
#[local] Open Scope Qc_scope.

(** What the rolling buffers hold: a [float], or [np.nan]. *)
Inductive sample :=
| Num (x : Qc)
| NaN.

Definition MAX_DATAPOINTS : nat := 200.

(** The module-level deques, oldest element first. *)
Record buffers := mkBuffers {
  timestamps : list Qc;
  mid_prices : list sample;
  spreads : list sample;
  imbalances : list sample;
  vwaps : list sample;
  trade_volumes_per_sec : list sample;
  last_trade_prices : list sample
}.

Definition no_data : buffers := mkBuffers [] [] [] [] [] [] [].

(** [dq.append(x)] on a [deque(maxlen=MAX_DATAPOINTS)]: a full deque
    drops from the left. *)
Definition append {A} (x : A) (dq : list A) : list A :=
  let dq' := dq ++ [x] in
  drop (length dq' - MAX_DATAPOINTS) dq'.

(** [x if x is not None else np.nan] *)
Definition or_nan (x : option Qc) : sample :=
  match x with Some v => Num v | None => NaN end.

(** [dq[-1] if dq else np.nan] *)
Definition last_or_nan (dq : list sample) : sample :=
  match last dq with Some v => v | None => NaN end.

(** Statements that read and write the buffers and may raise: the outcome,
    and the buffers as they are when the statement ends or raises. *)
Definition stmt (A : Type) : Type := buffers → result A * buffers.

Definition seq_stmt {A B} (m : stmt A) (k : A → stmt B) : stmt B :=
  λ bufs,
    match m bufs with
    | (Ok a, bufs') => k a bufs'
    | (Raise e, bufs') => (Raise e, bufs')
    end.

(** An expression: it may raise, it does not touch the buffers. *)
Definition eval {A} (r : result A) : stmt A := λ bufs, (r, bufs).

(** A buffer update; it does not raise. *)
Definition update (f : buffers → buffers) : stmt unit := λ bufs, (Ok (), f bufs).

#[local] Notation "x ⇐ m ;; k" := (seq_stmt m (λ x, k))
  (at level 100, m at next level, right associativity, only parsing).
#[local] Notation "m ;;; k" := (seq_stmt m (λ _, k))
  (at level 100, right associativity, only parsing).

Section Collector.
Variable float_of_str : string -> option Qc.

(** The body of [async for msg in binance_websocket_client(symbol,
    "bookTicker")] in [data_collector_book_ticker], statement by
    statement. *)
Definition on_book_ticker (msg : gmap string value) : stmt unit :=
  received ⇐ eval (getitem msg "_ts_received_ws") ;;
  current_time_sec ⇐ eval (div_float received (Qc_of_Z 1000000000)) ;;
  vb ⇐ eval (getitem msg "b") ;;
  best_bid ⇐ eval (float float_of_str vb) ;;
  vB ⇐ eval (getitem msg "B") ;;
  best_bid_qty ⇐ eval (float float_of_str vB) ;;
  va ⇐ eval (getitem msg "a") ;;
  best_ask ⇐ eval (float float_of_str va) ;;
  vA ⇐ eval (getitem msg "A") ;;
  best_ask_qty ⇐ eval (float float_of_str vA) ;;
  let mid := Metrics.calculate_mid_price best_bid best_ask in
  let spread := Metrics.calculate_spread best_bid best_ask in
  let imbalance := Metrics.calculate_order_book_imbalance best_bid_qty best_ask_qty in
  update (λ b, mkBuffers (append current_time_sec (timestamps b)) (mid_prices b)
                 (spreads b) (imbalances b) (vwaps b) (trade_volumes_per_sec b)
                 (last_trade_prices b)) ;;;
  update (λ b, mkBuffers (timestamps b) (append (or_nan mid) (mid_prices b))
                 (spreads b) (imbalances b) (vwaps b) (trade_volumes_per_sec b)
                 (last_trade_prices b)) ;;;
  update (λ b, mkBuffers (timestamps b) (mid_prices b)
                 (append (or_nan spread) (spreads b)) (imbalances b) (vwaps b)
                 (trade_volumes_per_sec b) (last_trade_prices b)) ;;;
  update (λ b, mkBuffers (timestamps b) (mid_prices b) (spreads b)
                 (append (or_nan imbalance) (imbalances b)) (vwaps b)
                 (trade_volumes_per_sec b) (last_trade_prices b)) ;;;
  update (λ b, mkBuffers (timestamps b) (mid_prices b) (spreads b) (imbalances b)
                 (append (last_or_nan (vwaps b)) (vwaps b))
                 (trade_volumes_per_sec b) (last_trade_prices b)) ;;;
  update (λ b, mkBuffers (timestamps b) (mid_prices b) (spreads b) (imbalances b)
                 (vwaps b)
                 (append (last_or_nan (trade_volumes_per_sec b))
                    (trade_volumes_per_sec b))
                 (last_trade_prices b)) ;;;
  update (λ b, mkBuffers (timestamps b) (mid_prices b) (spreads b) (imbalances b)
                 (vwaps b) (trade_volumes_per_sec b)
                 (append NaN (last_trade_prices b))).
End Collector.

(** A message is malformed when one of the four top-of-book fields is
    missing. *)
Definition missing_field (msg : gmap string value) : Prop :=
  msg !! "b" = None ∨ msg !! "B" = None ∨ msg !! "a" = None ∨ msg !! "A" = None.

(** A book-ticker event as the client yields it, and the same event
    without its ask quantity. *)
Definition sample_ticker_event : gmap string value :=
  <["_ts_received_ws" := VInt 1500]> OrderBook.sample_ticker.

Definition sample_malformed_event : gmap string value :=
  delete "A" sample_ticker_event.

(** Buffers after one well-formed event. *)
Definition sample_buffers : buffers :=
  (on_book_ticker float_of_decimal sample_ticker_event no_data).2.

End PlotLive.

(** ** The range of a double *)

Module FloatRange.
(** [sys.float_info.max], the largest finite [float]: [(2^53 - 1) * 2^971].
    A sum of two floats that is at most this large does not overflow to
    [inf]. *)
Definition float_max : Qc := Qc_of_Z ((2 ^ 53 - 1) * 2 ^ 971).
End FloatRange.

(** ** Views of trades used to state properties of the metrics *)

Module TradeFields.
Section WithFloat.
Variable float_of_str : string -> option Qc.

(** [float(trade['p'])] *)
Definition trade_price (trade : gmap string value) : result Qc :=
  vp ← getitem trade "p";
  float float_of_str vp.

(** The price of a trade whose [p] field [float] accepts. *)
Definition price (trade : gmap string value) : Qc :=
  match trade_price trade with
  | Ok x => x
  | Raise _ => 0%Qc
  end.

(** A trade whose price and quantity [float] accepts. *)
Definition priced_trade (trade : gmap string value) : Prop :=
  is_ok (trade_price trade) = true
  ∧ is_ok (Metrics.trade_qty float_of_str trade) = true.

(** The sum of the quantities of a list of trades. *)
Definition total_quantity (trades : list (gmap string value)) : Qc :=
  foldr Qcplus 0%Qc (Metrics.quantity float_of_str <$> trades).
End WithFloat.
End TradeFields.

(** ** Views of a run of the stream client *)

Module FeedViews.
Import Feed.

(** The payloads of the frames of a script that [orjson_loads] decodes to
    an object, in order. *)
Definition object_frames (orjson_loads : string -> result json)
    (script : list event) : list (gmap string value) :=
  omap (λ ev, match ev with
              | Frame message =>
                  match orjson_loads message with
                  | Ok (JObject d) => Some d
                  | _ => None
                  end
              | _ => None
              end) script.

(** The three keys the client writes into every event. *)
Definition stamp_key (key : string) : Prop :=
  key = "_ts_before_parse" ∨ key = "_ts_after_parse" ∨ key = "_ts_received_ws".

(** The event carries the payload: every key but the stamps reads as in
    the decoded frame. *)
Definition carries (payload data : gmap string value) : Prop :=
  ∀ key, ¬ stamp_key key → data !! key = payload !! key.

(** An event of a session without failures: a successful connection, a
    frame that decodes to an object, or a normal close. *)
Definition uneventful (orjson_loads : string -> result json) (ev : event) : Prop :=
  match ev with
  | ConnectOk | RecvEnds => True
  | Frame message => ∃ d, orjson_loads message = Ok (JObject d)
  | ConnectFails _ | RecvFails _ => False
  end.

(** A connection that fails twice, then delivers a trade, a frame that is
    not JSON, and after the reconnect a second trade. *)
Definition sample_script : list event :=
  [ ConnectFails InvalidStatusCode; ConnectFails (OtherError "timeout"); ConnectOk;
    Frame sample_trade_frame; Frame "oops"; ConnectOk; Frame sample_trade_frame ].

Definition sample_second_event : gmap string value :=
  <["_ts_received_ws" := VInt 2500]>
    (<["_ts_after_parse" := VInt 2250]>
       (<["_ts_before_parse" := VInt 2000]> {[ "T" := VInt 5 ]})).

Definition sample_outcome : state * list action :=
  (mkState Connected 1 7,
   [ Sleep 1; Sleep 2; Open; Yield sample_event; Close; Sleep 1; Open;
     Yield sample_second_event ]).

Definition sample_quiet_script : list event :=
  [ ConnectOk; Frame sample_trade_frame; RecvEnds; ConnectOk; Frame "{}"; RecvEnds ].

Definition sample_quiet_outcome : state * list action :=
  Eval vm_compute in
    default (initial, []) (run sample_loads sample_clock initial sample_quiet_script).
End FeedViews.

(** ** Deques *)

Module Deque.

(** [dq.append(x)] on a [deque(maxlen=maxlen)]. *)
Definition append_maxlen {A} (maxlen : nat) (x : A) (dq : list A) : list A :=
  let dq' := dq ++ [x] in
  drop (length dq' - maxlen) dq'.

(** [if dq: dq[-1] = x] *)
Definition set_last {A} (x : A) (dq : list A) : list A :=
  if is_empty dq then dq else <[(length dq - 1)%nat := x]> dq.

(** The last [n] elements of [l], all of it when it is shorter. *)
Definition last_n {A} (n : nat) (l : list A) : list A :=
  drop (length l - n) l.

End Deque.

(** ** Statements over module-level state

    A statement reads and writes a state [S] and may raise: it returns its
    outcome and the state as it is when the statement ends or raises. *)

Module Stmt.
Definition stmt (S A : Type) : Type := S → result A * S.

Definition seq_stmt {S A B} (m : stmt S A) (k : A → stmt S B) : stmt S B :=
  λ s,
    match m s with
    | (Ok a, s') => k a s'
    | (Raise e, s') => (Raise e, s')
    end.

(** An expression: it may raise, it does not touch the state. *)
Definition eval {S A} (r : result A) : stmt S A := λ s, (r, s).

(** A state update; it does not raise. *)
Definition update {S} (f : S → S) : stmt S unit := λ s, (Ok (), f s).
End Stmt.

(** ** plot_live.py: the trade collector and the plot data *)

Module PlotLiveTrades.
Import PlotLive Deque Stmt.
#[local] Open Scope Qc_scope.

(** [v >= c] where both sides are what the caller passed. *)
Definition ge_value (v c : value) : result bool :=
  match v, c with
  | VInt a, VInt b => Ok (b <=? a)%Z
  | VInt a, VFloat y => Ok (bool_decide (y ≤ Qc_of_Z a))
  | VFloat x, VInt b => Ok (bool_decide (Qc_of_Z b ≤ x))
  | VFloat x, VFloat y => Ok (bool_decide (y ≤ x))
  | _, _ => Raise TypeError
  end.

Section Collector.
Variable float_of_str : string -> option Qc.

(** [calculate_trade_volume_per_second] as [data_collector_trades] calls
    it: [current_time_ns] is whatever the message holds under
    [_ts_received_ws], so the cutoff [current_time_ns - window_ns] is a
    value too. *)
Fixpoint volume_scan_value (cutoff_time_ns : value)
    (reversed_trades : list (gmap string value)) (volume : Qc) : result Qc :=
  match reversed_trades with
  | [] => Ok volume
  | trade :: rest =>
      trade_time_ms ← getitem trade "T";
      trade_time_ns ← mul_int trade_time_ms 1000000;
      recent ← ge_value trade_time_ns cutoff_time_ns;
      if (recent : bool)
      then q ← Metrics.trade_qty float_of_str trade;
           volume_scan_value cutoff_time_ns rest (volume + q)
      else Ok volume
  end.

Definition trade_volume_per_second_value
    (trades : list (gmap string value)) (current_time_ns : value)
    (window_seconds : Z) : result Qc :=
  if is_empty trades || (window_seconds <=? 0)%Z then Ok 0
  else
    let window_ns := (window_seconds * 1000000000)%Z in
    cutoff_time_ns ← sub current_time_ns (VInt window_ns);
    volume_scan_value cutoff_time_ns (reverse trades) 0.

(** The buffers of the plot together with [all_trades]. *)
Record collected := mkCollected {
  plotted : buffers;
  all_trades : list (gmap string value)
}.

Definition MAX_TRADES : nat := 5000.

Definition nothing_collected : collected := mkCollected no_data [].

(** An expression that reads [all_trades]. *)
Definition eval_on_trades {A} (f : list (gmap string value) → result A)
  : stmt collected A :=
  λ s, (f (all_trades s), s).

Definition update_plotted (f : buffers → buffers) : stmt collected unit :=
  update (λ s, mkCollected (f (plotted s)) (all_trades s)).

#[local] Notation "x ⇐ m ;; k" := (seq_stmt m (λ x, k))
  (at level 100, m at next level, right associativity, only parsing).
#[local] Notation "m ;;; k" := (seq_stmt m (λ _, k))
  (at level 100, right associativity, only parsing).

(** The body of [async for msg in binance_websocket_client(symbol,
    "trade")] in [data_collector_trades]; [list(all_trades)] is the deque
    as it is after the append. *)
Definition data_collector_trades (msg : gmap string value) : stmt collected unit :=
  current_time_ns ⇐ eval (getitem msg "_ts_received_ws") ;;
  vp ⇐ eval (getitem msg "p") ;;
  trade_price ⇐ eval (float float_of_str vp) ;;
  update (λ s, mkCollected (plotted s) (append_maxlen MAX_TRADES msg (all_trades s))) ;;;
  latest_vwap ⇐
    eval_on_trades (λ trades, Metrics.calculate_vwap float_of_str trades 100) ;;
  latest_volume_per_sec ⇐
    eval_on_trades
      (λ trades, trade_volume_per_second_value trades current_time_ns 1) ;;
  update_plotted (λ b, mkBuffers (timestamps b) (mid_prices b) (spreads b) (imbalances b)
                         (set_last (or_nan latest_vwap) (vwaps b))
                         (trade_volumes_per_sec b) (last_trade_prices b)) ;;;
  update_plotted (λ b, mkBuffers (timestamps b) (mid_prices b) (spreads b) (imbalances b)
                         (vwaps b)
                         (set_last (Num latest_volume_per_sec) (trade_volumes_per_sec b))
                         (last_trade_prices b)) ;;;
  update_plotted (λ b, mkBuffers (timestamps b) (mid_prices b) (spreads b) (imbalances b)
                         (vwaps b) (trade_volumes_per_sec b)
                         (set_last (Num trade_price) (last_trade_prices b))).

(** One message handled by one of the two collectors. *)
Inductive arrival :=
| BookTicker (msg : gmap string value)
| Trade (msg : gmap string value).

(** What the message leaves behind, whether its handler raised or not. *)
Definition handle (a : arrival) (s : collected) : collected :=
  match a with
  | BookTicker msg =>
      mkCollected (on_book_ticker float_of_str msg (plotted s)).2 (all_trades s)
  | Trade msg => (data_collector_trades msg s).2
  end.

Definition handle_all (arrivals : list arrival) (s : collected) : collected :=
  foldl (λ s a, handle a s) s arrivals.
End Collector.

(** The seven plotted buffers have one length, at most [MAX_DATAPOINTS]. *)
Definition aligned (b : buffers) : Prop :=
  length (mid_prices b) = length (timestamps b)
  ∧ length (spreads b) = length (timestamps b)
  ∧ length (imbalances b) = length (timestamps b)
  ∧ length (vwaps b) = length (timestamps b)
  ∧ length (trade_volumes_per_sec b) = length (timestamps b)
  ∧ length (last_trade_prices b) = length (timestamps b)
  ∧ (length (timestamps b) ≤ MAX_DATAPOINTS)%nat.

(** [get_plot_data] of [update_plot], for [current_len = len(timestamps)]. *)
Definition get_plot_data (current_len : nat) (dq : list sample) : list sample :=
  if is_empty dq then replicate current_len NaN
  else
    let data := dq in
    let data :=
      if (length data <? current_len)%nat
      then data ++ replicate (current_len - length data) (last_or_nan data)
      else data in
    take current_len data.

(** A trade event as the client yields it, and the state after a
    book-ticker event and this trade. *)
Definition sample_trade_event : gmap string value :=
  {[ "p" := VStr "100.05"; "q" := VStr "1.5"; "T" := VInt 1699999999700;
     "_ts_received_ws" := VInt 1500 ]}.

Definition sample_collected : collected :=
  handle_all float_of_decimal
    [BookTicker sample_ticker_event; Trade sample_trade_event] nothing_collected.
End PlotLiveTrades.

(** ** latency_live.py: the latency collector *)

Module LatencyLive.
Import Deque Stmt.

Definition MAX_DATAPOINTS : nat := 200.
Definition MAX_DELTAS : nat := 5000.

(** The module-level deques, oldest element first. *)
Record buffers := mkBuffers {
  latency_deltas_us : list Qc;
  wall_clock_times : list Qc;
  rolling_latency_plot_data : list Qc
}.

Definition no_data : buffers := mkBuffers [] [] [].

#[local] Notation "x ⇐ m ;; k" := (seq_stmt m (λ x, k))
  (at level 100, m at next level, right associativity, only parsing).
#[local] Notation "m ;;; k" := (seq_stmt m (λ _, k))
  (at level 100, right associativity, only parsing).

(** The body of [async for msg in binance_websocket_client(symbol,
    "trade")] in [latency_data_collector] (its [print] left out). *)
Definition latency_data_collector (msg : gmap string value) : stmt buffers unit :=
  t ⇐ eval (getitem msg "T") ;;
  binance_trade_time_ns ⇐ eval (mul_int t 1000000) ;;
  local_receive_time_ns ⇐ eval (getitem msg "_ts_received_ws") ;;
  delta_ns ⇐ eval (sub local_receive_time_ns binance_trade_time_ns) ;;
  delta_us ⇐ eval (div_float delta_ns (Qc_of_Z 1000)) ;;
  update (λ b, mkBuffers (append_maxlen MAX_DELTAS delta_us (latency_deltas_us b))
                 (wall_clock_times b) (rolling_latency_plot_data b)) ;;;
  wall_clock ⇐ eval (div_float local_receive_time_ns (Qc_of_Z 1000000000)) ;;
  update (λ b, mkBuffers (latency_deltas_us b)
                 (append_maxlen MAX_DATAPOINTS wall_clock (wall_clock_times b))
                 (rolling_latency_plot_data b)) ;;;
  update (λ b, mkBuffers (latency_deltas_us b) (wall_clock_times b)
                 (append_maxlen MAX_DATAPOINTS delta_us (rolling_latency_plot_data b))).

(** The buffers after a sequence of messages, each handled whether or not
    its handler raised. *)
Definition latency_data_collector_all (msgs : list (gmap string value))
    (b : buffers) : buffers :=
  foldl (λ b msg, (latency_data_collector msg b).2) b msgs.

(** The rolling plot shows the newest deltas of the ring, one wall-clock
    time for each. *)
Definition rolling_is_tail (b : buffers) : Prop :=
  rolling_latency_plot_data b = last_n MAX_DATAPOINTS (latency_deltas_us b)
  ∧ length (wall_clock_times b) = length (rolling_latency_plot_data b)
  ∧ (length (latency_deltas_us b) ≤ MAX_DELTAS)%nat.

Definition sample_latency : buffers :=
  latency_data_collector_all [PlotLiveTrades.sample_trade_event] no_data.
End LatencyLive.

(** * Properties *)

(** ** metrics.py *)

Section MetricsFacts.
Import Metrics.
#[local] Open Scope Qc_scope.

Lemma sum_qc_app (l1 l2 : list Qc) :
  foldr Qcplus 0 (l1 ++ l2) = foldr Qcplus 0 l1 + foldr Qcplus 0 l2.
Proof.
  induction l1 as [|x l1 IH]; simpl.
  - by rewrite Qcplus_0_l.
  - rewrite IH. ring.
Qed.

Lemma Ok_Qc_eq (x y : Qc) : (this x == this y)%Q → @Ok Qc x = Ok y.
Proof. intros H. f_equal. by apply Qc_is_canon. Qed.

Lemma imbalance_ratio_bounds (b a : Qc) :
  0 ≤ b → 0 ≤ a → 0 < b + a →
  -1 ≤ (b - a) / (b + a) ∧ (b - a) / (b + a) ≤ 1.
Proof.
  intros Hb Ha Ht.
  unfold Qcle, Qclt in *. simpl in *.
  rewrite ?Qred_correct in *.
  change ((- (1) <= (b + - a) / (b + a) <= 1)%Q).
  split.
  - apply Qle_shift_div_l; [done|]. lra.
  - apply Qle_shift_div_r; [done|]. lra.
Qed.

Lemma spread_mid_guard (best_bid best_ask : Qc) :
  bool_decide (0 < best_bid) && bool_decide (0 < best_ask)
    && bool_decide (best_bid < best_ask) = true
  ↔ 0 < best_bid ∧ 0 < best_ask ∧ best_bid < best_ask.
Proof. rewrite !andb_true_iff, !bool_decide_eq_true. tauto. Qed.

(** C7. The spread is [best_ask - best_bid] and the mid-price is
    [(best_ask + best_bid) / 2] exactly when both prices are positive and
    the ask is above the bid; otherwise both functions return [None], so
    one is defined if and only if the other is. *)
Theorem spread_mid_definedness (best_bid best_ask : Qc) :
  (0 < best_bid ∧ 0 < best_ask ∧ best_bid < best_ask →
     calculate_spread best_bid best_ask = Some (best_ask - best_bid) ∧
     calculate_mid_price best_bid best_ask = Some ((best_ask + best_bid) / 2))
  ∧ (¬ (0 < best_bid ∧ 0 < best_ask ∧ best_bid < best_ask) →
     calculate_spread best_bid best_ask = None ∧
     calculate_mid_price best_bid best_ask = None)
  ∧ (is_Some (calculate_spread best_bid best_ask)
     ↔ is_Some (calculate_mid_price best_bid best_ask)).
Proof.
  unfold calculate_spread, calculate_mid_price.
  pose proof (spread_mid_guard best_bid best_ask) as Hg.
  destruct (bool_decide (0 < best_bid) && bool_decide (0 < best_ask)
            && bool_decide (best_bid < best_ask)).
  - split; [done|]. split; [|by split; eauto].
    intros Hn. destruct Hn. by apply Hg.
  - split; [|split; [done|]].
    + intros Hc. apply Hg in Hc. discriminate.
    + split; intros [? ?]; discriminate.
Qed.

(** C8. For non-negative quantities at the best level the imbalance is
    [(bid_qty - ask_qty) / (bid_qty + ask_qty)] when the total is positive,
    is [None] when the total is zero, and every value it returns lies in
    [[-1, 1]]. *)
Theorem imbalance_defined_and_bounded (bid_qty ask_qty : Qc) :
  0 ≤ bid_qty → 0 ≤ ask_qty →
  (0 < bid_qty + ask_qty →
     calculate_order_book_imbalance bid_qty ask_qty
     = Some ((bid_qty - ask_qty) / (bid_qty + ask_qty)))
  ∧ (bid_qty + ask_qty = 0 →
     calculate_order_book_imbalance bid_qty ask_qty = None)
  ∧ (∀ r, calculate_order_book_imbalance bid_qty ask_qty = Some r →
          -1 ≤ r ∧ r ≤ 1).
Proof.
  intros Hb Ha. unfold calculate_order_book_imbalance. simpl.
  split; [|split].
  - intros Ht. by rewrite bool_decide_eq_true_2.
  - intros Ht. rewrite bool_decide_eq_false_2; [done|].
    rewrite Ht. apply (irreflexivity Qclt).
  - intros r. case_bool_decide as Ht; [|done].
    intros [= <-]. by apply imbalance_ratio_bounds.
Qed.

Lemma imbalance_defined_and_bounded_witness :
  calculate_order_book_imbalance (Qc_of_Z 3) (Qc_of_Z 1)
  = Some ((Qc_of_Z 3 - Qc_of_Z 1) / (Qc_of_Z 3 + Qc_of_Z 1)).
Proof.
  apply (imbalance_defined_and_bounded (Qc_of_Z 3) (Qc_of_Z 1)); by vm_compute.
Defined.

Section WithFloat.
Variable float_of_str : string -> option Qc.

(** C9. With a window size of zero or below, [calculate_vwap] returns
    [None] for every trade list, whatever the trades hold: no number,
    and no exception. *)
Theorem vwap_nonpositive_window_none
    (trades : list (gmap string value)) (window_size_trades : Z) :
  (window_size_trades ≤ 0)%Z →
  calculate_vwap float_of_str trades window_size_trades = Ok None.
Proof.
  intros Hw. unfold calculate_vwap.
  apply Z.leb_le in Hw. rewrite Hw. by rewrite orb_true_r.
Qed.

#[local] Abbreviation time_ordered :=
  (StronglySorted (λ a b, (exchange_time_ms a ≤ exchange_time_ms b)%Z)).

Lemma well_formed_trade_inv (trade : gmap string value) :
  well_formed_trade float_of_str trade →
  ∃ t, getitem trade "T" = Ok (VInt t) ∧ exchange_time_ms trade = t
       ∧ trade_qty float_of_str trade = Ok (quantity float_of_str trade).
Proof.
  intros [[t Ht] Hq]. exists t. unfold getitem, exchange_time_ms, quantity.
  rewrite Ht. split; [done|split; [done|]].
  by destruct (trade_qty float_of_str trade).
Qed.

(** Once a trade is older than the cutoff, so is every trade before it
    in a time-ordered history. *)
Lemma older_trades_filtered_out now_ns window_ns
    (l : list (gmap string value)) (x : gmap string value) :
  time_ordered (l ++ [x]) →
  in_window now_ns window_ns x = false →
  filter (λ t, in_window now_ns window_ns t = true) l = [].
Proof.
  intros Hs Hx. induction l as [|a l IH]; [done|].
  rewrite filter_cons.
  assert (in_window now_ns window_ns a = false) as Ha.
  { unfold in_window in *. apply Z.leb_gt in Hx. apply Z.leb_gt.
    pose proof (StronglySorted_app_1_elem_of _ (a :: l) [x] a x Hs) as Hax.
    simpl in Hax. assert (exchange_time_ms a ≤ exchange_time_ms x)%Z; [|lia].
    apply Hax; set_solver. }
  rewrite decide_False by (by rewrite Ha).
  apply IH. by apply StronglySorted_cons in Hs as [_ ?].
Qed.

Lemma volume_scan_refines now_ns window_ns
    (trades : list (gmap string value)) (volume : Qc) :
  Forall (well_formed_trade float_of_str) trades →
  time_ordered trades →
  volume_scan float_of_str (now_ns - window_ns) (reverse trades) volume
  = Ok (volume + trailing_volume_spec float_of_str trades now_ns window_ns).
Proof.
  revert volume. induction trades as [|x l IH] using rev_ind; intros volume Hwf Hs.
  - unfold trailing_volume_spec. simpl. by rewrite Qcplus_0_r.
  - rewrite Forall_app, Forall_singleton in Hwf. destruct Hwf as [Hwf Hx].
    destruct (well_formed_trade_inv x Hx) as (t & HT & Ht & Hq).
    rewrite reverse_snoc. simpl. rewrite HT. simpl.
    unfold trailing_volume_spec. rewrite filter_app, fmap_app, sum_qc_app.
    rewrite filter_cons, filter_nil.
    fold (trailing_volume_spec float_of_str l now_ns window_ns).
    assert (in_window now_ns window_ns x = (now_ns - window_ns <=? t * 1000000)%Z)
      as Hin by (unfold in_window; by rewrite Ht).
    destruct (now_ns - window_ns <=? t * 1000000)%Z eqn:Hge.
    + rewrite Hq. simpl. rewrite decide_True by done.
      rewrite IH; [|done|by eapply StronglySorted_app_1_l].
      simpl. f_equal. ring.
    + rewrite decide_False by (by rewrite Hin).
      unfold trailing_volume_spec.
      rewrite (older_trades_filtered_out now_ns window_ns l x Hs Hin).
      simpl. f_equal. ring.
Qed.

(** C5. On a trade history whose exchange timestamps are non-decreasing
    in list order and a positive window, the backward scan with early
    exit computes the sum of the quantities of all trades whose
    timestamp, in nanoseconds, is at least [now_ns - window]: the full
    filter-and-sum over the history. *)
Theorem trailing_volume_early_exit_exact
    (trades : list (gmap string value)) (now_ns window_seconds : Z) :
  Forall (well_formed_trade float_of_str) trades →
  StronglySorted (λ a b, (exchange_time_ms a ≤ exchange_time_ms b)%Z) trades →
  (0 < window_seconds)%Z →
  calculate_trade_volume_per_second float_of_str trades now_ns window_seconds
  = Ok (trailing_volume_spec float_of_str trades now_ns
          (window_seconds * 1000000000)).
Proof.
  intros Hwf Hs Hw. unfold calculate_trade_volume_per_second.
  destruct trades as [|x l]; [done|].
  simpl is_empty. rewrite orb_false_l.
  apply Z.leb_gt in Hw. rewrite Hw.
  rewrite volume_scan_refines by done. by rewrite Qcplus_0_l.
Qed.
End WithFloat.

Lemma vwap_nonpositive_window_none_witness :
  calculate_vwap float_of_decimal sample_trades 0 = Ok None
  ∧ calculate_vwap float_of_decimal sample_trades (-3) = Ok None.
Proof.
  split.
  - apply (vwap_nonpositive_window_none float_of_decimal sample_trades 0). lia.
  - apply (vwap_nonpositive_window_none float_of_decimal sample_trades (-3)). lia.
Defined.

Lemma sample_trades_well_formed :
  Forall (well_formed_trade float_of_decimal) sample_trades.
Proof. repeat constructor; by eexists. Defined.

Lemma sample_trades_time_ordered :
  StronglySorted (λ a b, (exchange_time_ms a ≤ exchange_time_ms b)%Z) sample_trades.
Proof. repeat constructor; by vm_compute. Defined.

Lemma trailing_volume_early_exit_exact_witness :
  calculate_trade_volume_per_second float_of_decimal sample_trades sample_now_ns 2
  = Ok (trailing_volume_spec float_of_decimal sample_trades sample_now_ns 2000000000).
Proof.
  apply (trailing_volume_early_exit_exact float_of_decimal sample_trades sample_now_ns 2).
  - exact sample_trades_well_formed.
  - exact sample_trades_time_ordered.
  - lia.
Defined.

(** The expected values of the example block: 3.5 over one second, 4.0
    over two. *)
Example sample_volume_last_sec :
  calculate_trade_volume_per_second float_of_decimal sample_trades sample_now_ns 1
  = Ok (Q2Qc (7 # 2)).
Proof. vm_compute. apply Ok_Qc_eq. by vm_compute. Qed.

Example sample_volume_last_2_sec :
  calculate_trade_volume_per_second float_of_decimal sample_trades sample_now_ns 2
  = Ok (Q2Qc 4).
Proof. vm_compute. apply Ok_Qc_eq. by vm_compute. Qed.

(** Without the ordering the early exit undercounts: a stale trade placed
    last hides the recent ones before it. *)
Example early_exit_needs_time_order :
  let trades := sample_trades ++ [ {[ "q" := VStr "9"; "T" := VInt 0 ]} ] in
  calculate_trade_volume_per_second float_of_decimal trades sample_now_ns 1 = Ok 0%Qc
  ∧ trailing_volume_spec float_of_decimal trades sample_now_ns 1000000000 = Q2Qc (7 # 2).
Proof. split; vm_compute; [reflexivity | by apply Qc_is_canon]. Qed.
End MetricsFacts.


(** ** feed.py *)

Section FeedFacts.
Import Feed.
Variable orjson_loads : string -> result json.
Variable monotonic_ns : nat -> Z.

#[local] Abbreviation step := (Feed.step orjson_loads monotonic_ns).
#[local] Abbreviation run := (Feed.run orjson_loads monotonic_ns).
#[local] Abbreviation reachable := (Feed.reachable orjson_loads monotonic_ns).
#[local] Abbreviation stamped_at := (Feed.stamped_at monotonic_ns).

Lemma handle_exception_eq (e : exn) (st : state) :
  handle_exception e st
  = (mkState Connecting (Z.min (backoff_time st * 2) 60) (clock_reads st),
     [Sleep (backoff_time st)]).
Proof. by destruct e. Qed.

Lemma fail_in_session_eq (e : exn) (st : state) :
  fail_in_session e st
  = (mkState Connecting (Z.min (backoff_time st * 2) 60) (clock_reads st),
     [Close; Sleep (backoff_time st)]).
Proof. unfold fail_in_session. by rewrite handle_exception_eq. Qed.

Lemma run_cons (st : state) (ev : event) (script : list event) :
  run st (ev :: script)
  = '(st1, acts1) ← step st ev;
    '(st2, acts2) ← run st1 script;
    Some (st2, acts1 ++ acts2).
Proof. done. Qed.

Lemma run_app (st : state) (s1 s2 : list event) :
  run st (s1 ++ s2)
  = '(st1, acts1) ← run st s1;
    '(st2, acts2) ← run st1 s2;
    Some (st2, acts1 ++ acts2).
Proof.
  revert st. induction s1 as [|ev s1 IH]; intros st.
  - simpl. destruct (run st s2) as [[st2 acts2]|]; by simpl.
  - simpl. destruct (step st ev) as [[st1 acts1]|]; [simpl|done].
    rewrite IH. destruct (run st1 s1) as [[st1' acts1']|]; [simpl|done].
    destruct (run st1' s2) as [[st2 acts2]|]; [simpl|done].
    by rewrite app_assoc.
Qed.

Lemma yields_app (a1 a2 : list action) : yields (a1 ++ a2) = yields a1 ++ yields a2.
Proof. apply omap_app. Qed.

(** *** The backoff schedule *)

Lemma backoff_delay_succ (k : nat) :
  Z.min (backoff_delay k * 2) 60 = backoff_delay (S k).
Proof.
  unfold backoff_delay. rewrite Nat2Z.inj_succ, Z.pow_succ_r by lia.
  pose proof (Z.pow_pos_nonneg 2 (Z.of_nat k)). lia.
Qed.

Lemma backoff_delay_capped (k : nat) : (6 ≤ k)%nat → backoff_delay k = 60.
Proof.
  intros Hk. unfold backoff_delay.
  assert (2 ^ 6 ≤ 2 ^ Z.of_nat k) by (apply Z.pow_le_mono_r; lia).
  change (2 ^ 6) with 64 in *. lia.
Qed.

Lemma connect_failures_delays (es : list exn) (k n : nat) :
  ∃ acts,
    run (mkState Connecting (backoff_delay k) n) (ConnectFails <$> es)
    = Some (mkState Connecting (backoff_delay (k + length es)) n, acts)
    ∧ sleeps acts = backoff_delay <$> seq k (length es).
Proof.
  revert k. induction es as [|e es IH]; intros k.
  - exists []. simpl. by rewrite Nat.add_0_r.
  - destruct (IH (S k)) as (acts & Hrun & Hs).
    exists (Sleep (backoff_delay k) :: acts).
    rewrite fmap_cons, run_cons. unfold Feed.step. simpl conn. cbv iota.
    rewrite handle_exception_eq. simpl backoff_time. simpl clock_reads.
    rewrite backoff_delay_succ. simpl. rewrite Hrun. simpl.
    split; [by rewrite Nat.add_succ_r|]. by rewrite Hs.
Qed.

(** C3. Consecutive connection failures sleep 1, 2, 4, 8, 16, 32, 60,
    60, ... : the [k]-th delay is [min (2^k) 60].  A successful connection
    sets the delay back to 1 at once, whatever it was, so that the
    failures that follow it start the sequence again. *)
Theorem backoff_sequence :
  (∀ es : list exn, ∃ st' acts,
      run initial (ConnectFails <$> es) = Some (st', acts)
      ∧ sleeps acts = backoff_delay <$> seq 0 (length es))
  ∧ backoff_delay <$> seq 0 8 = [1; 2; 4; 8; 16; 32; 60; 60]
  ∧ (∀ k, (6 ≤ k)%nat → backoff_delay k = 60)
  ∧ (∀ b n, step (mkState Connecting b n) ConnectOk
            = Some (mkState Connected 1 n, [Open]))
  ∧ (∀ b n e (es : list exn), ∃ st' acts,
      run (mkState Connecting b n) (ConnectOk :: RecvFails e :: (ConnectFails <$> es))
      = Some (st', acts)
      ∧ sleeps acts = backoff_delay <$> seq 0 (S (length es))).
Proof.
  split; [|split; [done|split; [apply backoff_delay_capped|split; [done|]]]].
  - intros es. destruct (connect_failures_delays es 0 0) as (acts & Hrun & Hs).
    by exists (mkState Connecting (backoff_delay (0 + length es)) 0), acts.
  - intros b n e es.
    destruct (connect_failures_delays es 1 n) as (acts & Hrun & Hs).
    exists (mkState Connecting (backoff_delay (1 + length es)) n),
      ([Open] ++ ([Close; Sleep 1] ++ acts)).
    rewrite !run_cons. unfold Feed.step at 1. simpl.
    rewrite fail_in_session_eq. simpl.
    change (Z.min (1 * 2) 60) with (backoff_delay 1).
    rewrite Hrun. simpl. split; [done|].
    unfold sleeps in *. simpl. by rewrite Hs.
Qed.

(** *** Reachable states *)

Lemma step_session_invariant (st st' : state) (ev : event) (acts : list action) :
  session_invariant st → step st ev = Some (st', acts) → session_invariant st'.
Proof.
  intros Hinv Hstep. unfold Feed.step in Hstep.
  destruct (conn st) eqn:Hc, ev; simplify_eq/=; try done.
  - by rewrite handle_exception_eq in Hstep; simplify_eq.
  - unfold on_message in Hstep.
    destruct (orjson_loads message) as [[d|]|e];
      rewrite ?fail_in_session_eq in Hstep; simplify_eq; try done.
    intros _. by apply Hinv.
  - by rewrite fail_in_session_eq in Hstep; simplify_eq.
Qed.

Lemma run_session_invariant (script : list event) (st st' : state) (acts : list action) :
  session_invariant st → run st script = Some (st', acts) → session_invariant st'.
Proof.
  revert st acts. induction script as [|ev script IH]; intros st acts Hinv Hrun.
  - by simplify_eq/=.
  - rewrite run_cons in Hrun.
    destruct (step st ev) as [[st1 acts1]|] eqn:Hstep; [simpl in Hrun|done].
    destruct (run st1 script) as [[st2 acts2]|] eqn:Hrun'; simplify_eq/=.
    eapply IH; [|done]. by eapply step_session_invariant.
Qed.

Lemma reachable_connected_backoff (st : state) :
  reachable st → conn st = Connected → backoff_time st = 1.
Proof.
  intros (script & acts & Hrun). by eapply (run_session_invariant script initial).
Qed.

(** *** Decode failures *)

(** C1, as the code has it. A frame that [orjson.loads] rejects is
    dropped (nothing is yielded for it) and the stream goes on, but not in
    place: the exception leaves the connection, the client sleeps the
    current delay, which is 1 in every connected session, doubles it to 2
    and reconnects; frames of the next connection are yielded again. *)
Theorem decode_failure_reconnects (st : state) (message : string) (e : exn) :
  reachable st → conn st = Connected → orjson_loads message = Raise e →
  step st (Frame message)
  = Some (mkState Connecting 2 (S (clock_reads st)), [Close; Sleep 1])
  ∧ (∀ message' data, orjson_loads message' = Ok (JObject data) →
      ∃ st' acts,
        run st [Frame message; ConnectOk; Frame message'] = Some (st', acts)
        ∧ conn st' = Connected
        ∧ sleeps acts = [1]
        ∧ length (yields acts) = 1%nat).
Proof.
  intros Hreach Hconn Hdec.
  pose proof (reachable_connected_backoff st Hreach Hconn) as Hb.
  assert (step st (Frame message)
          = Some (mkState Connecting 2 (S (clock_reads st)), [Close; Sleep 1])) as Hstep.
  { unfold Feed.step, on_message. rewrite Hconn, Hdec, fail_in_session_eq.
    simpl. by rewrite Hb. }
  split; [done|].
  intros message' data Hdec'.
  rewrite run_cons, Hstep. simpl.
  unfold on_message. simpl. rewrite Hdec'. simpl.
  eexists _, _. split; [reflexivity|]. by repeat split.
Qed.

(** *** Timestamps *)

Lemma step_yield_stamps (st st' : state) (ev : event) (acts : list action)
    (data : gmap string value) :
  step st ev = Some (st', acts) → data ∈ yields acts →
  ∃ k, stamped_at k data.
Proof.
  intros Hstep Hin. unfold Feed.step in Hstep.
  destruct (conn st), ev; simplify_eq/=;
    rewrite ?handle_exception_eq, ?fail_in_session_eq in *; simplify_eq/=;
    try (by apply elem_of_nil in Hin).
  unfold on_message in Hstep.
  destruct (orjson_loads message) as [[d|]|e];
    rewrite ?fail_in_session_eq in Hstep; simplify_eq/=;
    try (by apply elem_of_nil in Hin).
  apply list_elem_of_singleton in Hin as ->.
  exists (clock_reads st). unfold stamped_at.
  repeat split; by simplify_map_eq.
Qed.

Lemma run_yield_stamps (script : list event) (st st' : state)
    (acts : list action) (data : gmap string value) :
  run st script = Some (st', acts) → data ∈ yields acts →
  ∃ k, stamped_at k data.
Proof.
  revert st acts. induction script as [|ev script IH]; intros st acts Hrun Hin.
  - simplify_eq/=. by apply elem_of_nil in Hin.
  - rewrite run_cons in Hrun.
    destruct (step st ev) as [[st1 acts1]|] eqn:Hstep; [simpl in Hrun|done].
    destruct (run st1 script) as [[st2 acts2]|] eqn:Hrun'; simplify_eq/=.
    rewrite yields_app, elem_of_app in Hin. destruct Hin as [Hin|Hin].
    + by eapply step_yield_stamps.
    + by eapply IH.
Qed.

(** C10. On a monotonic clock, every yielded event carries three stamps
    read in the order pre-decode, post-decode, arrival, so
    [_ts_before_parse ≤ _ts_after_parse ≤ _ts_received_ws].  The arrival
    stamp is read after decoding, so the transport latency
    [_ts_received_ws - T * 1_000_000] is at least the latency up to the
    pre-decode stamp plus the parse latency: it includes the decode
    time. *)
Theorem yielded_stamps_ordered (st st' : state) (script : list event)
    (acts : list action) (data : gmap string value) :
  (∀ i j, (i ≤ j)%nat → monotonic_ns i ≤ monotonic_ns j) →
  run st script = Some (st', acts) →
  data ∈ yields acts →
  ∃ before after received : Z,
    data !! "_ts_before_parse" = Some (VInt before)
    ∧ data !! "_ts_after_parse" = Some (VInt after)
    ∧ data !! "_ts_received_ws" = Some (VInt received)
    ∧ (∃ k, before = monotonic_ns k ∧ after = monotonic_ns (S k)
            ∧ received = monotonic_ns (S (S k)))
    ∧ before ≤ after ∧ after ≤ received
    ∧ parse_latency_ns data = Ok (VInt (after - before))
    ∧ ∀ t, data !! "T" = Some (VInt t) →
           latency_ns data = Ok (VInt (received - t * 1000000))
           ∧ (before - t * 1000000) + (after - before) ≤ received - t * 1000000.
Proof.
  intros Hmono Hrun Hin.
  destruct (run_yield_stamps script st st' acts data Hrun Hin) as (k & Hb & Ha & Hr).
  exists (monotonic_ns k), (monotonic_ns (S k)), (monotonic_ns (S (S k))).
  pose proof (Hmono k (S k)). pose proof (Hmono (S k) (S (S k))).
  split; [done|]. split; [done|]. split; [done|].
  split; [by exists k|]. split; [lia|]. split; [lia|].
  split.
  { unfold parse_latency_ns, getitem. by rewrite Ha, Hb. }
  intros t Ht. split; [|lia].
  unfold latency_ns, getitem. by rewrite Hr, Ht.
Qed.
End FeedFacts.

Section FeedExamples.
Import Feed.

Example sample_session :
  run sample_loads sample_clock initial [ConnectOk; Frame sample_trade_frame]
  = Some (mkState Connected 1 3, [Open; Yield sample_event]).
Proof. by vm_compute. Qed.

Lemma sample_connected_reachable :
  reachable sample_loads sample_clock (mkState Connected 1 0).
Proof. by exists [ConnectOk], [Open]. Defined.

Lemma sample_clock_monotonic (i j : nat) :
  (i ≤ j)%nat → sample_clock i ≤ sample_clock j.
Proof. unfold sample_clock. lia. Defined.

(** C1, as the specification words it, fails on the first undecodable
    frame of a session: the client does not stay where it was. *)
Lemma decode_failure_not_dropped_in_place :
  ¬ frame_dropped_in_place sample_loads sample_clock (mkState Connected 1 0) "oops".
Proof. intros (st' & Hstep & _). vm_compute in Hstep. discriminate. Qed.

Lemma decode_failure_reconnects_witness :
  step sample_loads sample_clock (mkState Connected 1 0) (Frame "oops")
  = Some (mkState Connecting 2 1, [Close; Sleep 1])
  ∧ (∀ message' data, sample_loads message' = Ok (JObject data) →
      ∃ st' acts,
        run sample_loads sample_clock (mkState Connected 1 0)
          [Frame "oops"; ConnectOk; Frame message'] = Some (st', acts)
        ∧ conn st' = Connected
        ∧ sleeps acts = [1]
        ∧ length (yields acts) = 1%nat).
Proof.
  apply (decode_failure_reconnects sample_loads sample_clock
           (mkState Connected 1 0) "oops" JSONDecodeError).
  - exact sample_connected_reachable.
  - reflexivity.
  - reflexivity.
Defined.

Lemma yielded_stamps_ordered_witness :
  ∃ before after received : Z,
    sample_event !! "_ts_before_parse" = Some (VInt before)
    ∧ sample_event !! "_ts_after_parse" = Some (VInt after)
    ∧ sample_event !! "_ts_received_ws" = Some (VInt received)
    ∧ (∃ k, before = sample_clock k ∧ after = sample_clock (S k)
            ∧ received = sample_clock (S (S k)))
    ∧ before ≤ after ∧ after ≤ received
    ∧ parse_latency_ns sample_event = Ok (VInt (after - before))
    ∧ ∀ t, sample_event !! "T" = Some (VInt t) →
           latency_ns sample_event = Ok (VInt (received - t * 1000000))
           ∧ (before - t * 1000000) + (after - before) ≤ received - t * 1000000.
Proof.
  apply (yielded_stamps_ordered sample_loads sample_clock initial
           (mkState Connected 1 3) [ConnectOk; Frame sample_trade_frame]
           [Open; Yield sample_event] sample_event).
  - exact sample_clock_monotonic.
  - by vm_compute.
  - simpl. apply list_elem_of_here.
Defined.
End FeedExamples.

(** ** The order-book store *)

Section OrderBookFacts.
Import OrderBook.
#[local] Open Scope Qc_scope.

Lemma max_price_cases (a b : Qc) :
  (max_price a b = a ∨ max_price a b = b) ∧ a ≤ max_price a b ∧ b ≤ max_price a b.
Proof.
  unfold max_price. case_bool_decide as H.
  - split; [by right|]. split; [done|apply Qcle_refl].
  - split; [by left|]. split; [apply Qcle_refl|].
    by destruct (total Qcle a b).
Qed.

Lemma min_price_cases (a b : Qc) :
  (min_price a b = a ∨ min_price a b = b) ∧ min_price a b ≤ a ∧ min_price a b ≤ b.
Proof.
  unfold min_price. case_bool_decide as H.
  - split; [by left|]. split; [apply Qcle_refl|done].
  - split; [by right|]. split; [|apply Qcle_refl].
    by destruct (total Qcle a b).
Qed.

Lemma foldr_max_price (p : Qc) (ps : list Qc) :
  foldr max_price p ps ∈ p :: ps ∧ ∀ x, x ∈ p :: ps → x ≤ foldr max_price p ps.
Proof.
  induction ps as [|y ps [IHin IHub]]; simpl.
  - split; [apply list_elem_of_here|].
    intros x ->%list_elem_of_singleton. apply Qcle_refl.
  - destruct (max_price_cases y (foldr max_price p ps)) as ([Hy|Hr] & Hle1 & Hle2).
    + split; [rewrite Hy; rewrite !elem_of_cons in *; tauto|].
      intros x Hx. rewrite !elem_of_cons in Hx.
      destruct Hx as [->|[->|Hx]]; [|done|].
      * eapply Qcle_trans; [|exact Hle2]. apply IHub, list_elem_of_here.
      * eapply Qcle_trans; [|exact Hle2]. by apply IHub, list_elem_of_further.
    + split; [rewrite Hr; rewrite !elem_of_cons in *; tauto|].
      intros x Hx. rewrite !elem_of_cons in Hx.
      destruct Hx as [->|[->|Hx]]; [|done|].
      * eapply Qcle_trans; [|exact Hle2]. apply IHub, list_elem_of_here.
      * eapply Qcle_trans; [|exact Hle2]. by apply IHub, list_elem_of_further.
Qed.

Lemma foldr_min_price (p : Qc) (ps : list Qc) :
  foldr min_price p ps ∈ p :: ps ∧ ∀ x, x ∈ p :: ps → foldr min_price p ps ≤ x.
Proof.
  induction ps as [|y ps [IHin IHlb]]; simpl.
  - split; [apply list_elem_of_here|].
    intros x ->%list_elem_of_singleton. apply Qcle_refl.
  - destruct (min_price_cases y (foldr min_price p ps)) as ([Hy|Hr] & Hle1 & Hle2).
    + split; [rewrite Hy; rewrite !elem_of_cons in *; tauto|].
      intros x Hx. rewrite !elem_of_cons in Hx.
      destruct Hx as [->|[->|Hx]]; [|done|].
      * eapply Qcle_trans; [exact Hle2|]. apply IHlb, list_elem_of_here.
      * eapply Qcle_trans; [exact Hle2|]. by apply IHlb, list_elem_of_further.
    + split; [rewrite Hr; rewrite !elem_of_cons in *; tauto|].
      intros x Hx. rewrite !elem_of_cons in Hx.
      destruct Hx as [->|[->|Hx]]; [|done|].
      * eapply Qcle_trans; [exact Hle2|]. apply IHlb, list_elem_of_here.
      * eapply Qcle_trans; [exact Hle2|]. by apply IHlb, list_elem_of_further.
Qed.

Lemma elem_of_price_keys (m : gmap Qc Qc) (p : Qc) :
  p ∈ (map_to_list m).*1 ↔ is_Some (m !! p).
Proof.
  rewrite list_elem_of_fmap. split.
  - intros ([p' q] & -> & Hin). apply elem_of_map_to_list in Hin. by exists q.
  - intros [q Hq]. exists (p, q). split; [done|]. by apply elem_of_map_to_list.
Qed.

Lemma extremum_empty (pick : Qc → Qc → Qc) : extremum pick ∅ = 0.
Proof. unfold extremum. by rewrite map_to_list_empty. Qed.

Lemma extremum_max_spec (m : gmap Qc Qc) (p : Qc) :
  is_Some (m !! p) →
  is_Some (m !! extremum max_price m) ∧ p ≤ extremum max_price m.
Proof.
  intros Hp. apply elem_of_price_keys in Hp.
  pose proof (elem_of_price_keys m) as Hkeys.
  unfold extremum. destruct ((map_to_list m).*1) as [|k ks]; [by apply elem_of_nil in Hp|].
  destruct (foldr_max_price k ks) as [Hin Hub].
  split; [by apply Hkeys|by apply Hub].
Qed.

Lemma extremum_min_spec (m : gmap Qc Qc) (p : Qc) :
  is_Some (m !! p) →
  is_Some (m !! extremum min_price m) ∧ extremum min_price m ≤ p.
Proof.
  intros Hp. apply elem_of_price_keys in Hp.
  pose proof (elem_of_price_keys m) as Hkeys.
  unfold extremum. destruct ((map_to_list m).*1) as [|k ks]; [by apply elem_of_nil in Hp|].
  destruct (foldr_min_price k ks) as [Hin Hlb].
  split; [by apply Hkeys|by apply Hlb].
Qed.

Lemma upsert_level_positive (price quantity : Qc) (m : gmap Qc Qc) :
  (∀ p q, m !! p = Some q → 0 < q) →
  ∀ p q, upsert_level price quantity m !! p = Some q → 0 < q.
Proof.
  intros Hm p q. unfold upsert_level. case_bool_decide as Hq.
  - rewrite lookup_delete_Some. intros [_ ?]. by eapply Hm.
  - rewrite lookup_insert_Some. intros [[_ <-]|[_ ?]]; [|by eapply Hm].
    by apply Qclt_nge.
Qed.

Lemma upsert_positive (s : side) (price quantity : Qc) (st : store) :
  positive_levels st → positive_levels (upsert s price quantity st).
Proof.
  intros Hst s' p q. destruct s, s'; simpl;
    try (apply upsert_level_positive; intros ? ?);
    first [apply (Hst Bid) | apply (Hst Ask)].
Qed.

Lemma apply_upserts_positive (ops : list (side * Qc * Qc)) (st : store) :
  positive_levels st → positive_levels (apply_upserts ops st).
Proof.
  revert st. induction ops as [|[[s p] q] ops IH]; intros st Hst; [done|].
  simpl. apply IH. by apply upsert_positive.
Qed.

Lemma empty_positive : positive_levels empty.
Proof. intros [] p q; simpl; by rewrite lookup_empty. Qed.

Lemma quantity_at_positive (s : side) (p : Qc) (st : store) :
  positive_levels st →
  0 < quantity_at s p st ↔ is_Some (levels s st !! p).
Proof.
  intros Hst. unfold quantity_at. split.
  - destruct (levels s st !! p) eqn:E; [by eauto|].
    simpl. intros H. by apply (irreflexivity Qclt) in H.
  - intros [q Hq]. rewrite Hq. simpl. by eapply Hst.
Qed.

Lemma no_quantity_no_levels (s : side) (st : store) :
  positive_levels st →
  (∀ p, quantity_at s p st = 0) → levels s st = ∅.
Proof.
  intros Hst H0. apply map_eq. intros p. rewrite lookup_empty.
  destruct (levels s st !! p) as [q|] eqn:E; [|done].
  pose proof (Hst s p q E) as Hq. specialize (H0 p).
  unfold quantity_at in H0. rewrite E in H0. simpl in H0. subst q.
  by apply (irreflexivity Qclt) in Hq.
Qed.

(** C4. After any finite sequence of [upsert] calls on an empty book, the
    stored quantities are exactly the positive ones; [best_bid] is a bid
    price with a positive stored quantity and no such price is above it,
    and it is [0] when no bid price has one; [best_ask] is the same with
    the minimum on the ask side. *)
Theorem best_bid_ask_after_upserts (ops : list (side * Qc * Qc)) :
  (∀ s p, 0 < quantity_at s p (apply_upserts ops empty)
          ↔ is_Some (levels s (apply_upserts ops empty) !! p))
  ∧ (∀ p, 0 < quantity_at Bid p (apply_upserts ops empty) →
          0 < quantity_at Bid (best_bid (apply_upserts ops empty))
                (apply_upserts ops empty)
          ∧ p ≤ best_bid (apply_upserts ops empty))
  ∧ ((∀ p, quantity_at Bid p (apply_upserts ops empty) = 0) →
      best_bid (apply_upserts ops empty) = 0)
  ∧ (∀ p, 0 < quantity_at Ask p (apply_upserts ops empty) →
          0 < quantity_at Ask (best_ask (apply_upserts ops empty))
                (apply_upserts ops empty)
          ∧ best_ask (apply_upserts ops empty) ≤ p)
  ∧ ((∀ p, quantity_at Ask p (apply_upserts ops empty) = 0) →
      best_ask (apply_upserts ops empty) = 0).
Proof.
  pose proof (apply_upserts_positive ops empty empty_positive) as Hpos.
  set (st := apply_upserts ops empty) in *.
  split; [intros s p; by apply quantity_at_positive|].
  split; [|split; [|split]].
  - intros p Hp. apply (quantity_at_positive Bid p st Hpos) in Hp.
    destruct (extremum_max_spec (bids st) p Hp) as [Hbest Hle].
    split; [|done]. by apply (quantity_at_positive Bid _ st Hpos).
  - intros H0. unfold best_bid.
    pose proof (no_quantity_no_levels Bid st Hpos H0) as He. simpl in He.
    rewrite He. apply extremum_empty.
  - intros p Hp. apply (quantity_at_positive Ask p st Hpos) in Hp.
    destruct (extremum_min_spec (asks st) p Hp) as [Hbest Hle].
    split; [|done]. by apply (quantity_at_positive Ask _ st Hpos).
  - intros H0. unfold best_ask.
    pose proof (no_quantity_no_levels Ask st Hpos H0) as He. simpl in He.
    rewrite He. apply extremum_empty.
Qed.

(** C2. Whatever the store held, after [apply_top_of_book] the bid side
    holds the level [(b, B)] and nothing else, and holds it only if
    [B > 0]; likewise the ask side with [(a, A)].  No earlier level
    survives. *)
Theorem apply_top_of_book_replaces (u : top_of_book) (st : store) :
  (∀ p q, bids (apply_top_of_book u st) !! p = Some q
          ↔ p = bid_price u ∧ q = bid_qty u ∧ 0 < bid_qty u)
  ∧ (∀ p q, asks (apply_top_of_book u st) !! p = Some q
          ↔ p = ask_price u ∧ q = ask_qty u ∧ 0 < ask_qty u)
  ∧ bids (apply_top_of_book u st)
    = (if bool_decide (0 < bid_qty u) then {[ bid_price u := bid_qty u ]} else ∅)
  ∧ asks (apply_top_of_book u st)
    = (if bool_decide (0 < ask_qty u) then {[ ask_price u := ask_qty u ]} else ∅).
Proof.
  assert (∀ price quantity p q,
    upsert_level price quantity ∅ !! p = Some q
    ↔ p = price ∧ q = quantity ∧ 0 < quantity) as Hlookup.
  { intros price quantity p q. unfold upsert_level. case_bool_decide as Hq.
    - rewrite delete_empty, lookup_empty. split; [done|].
      intros (_ & _ & Hlt). by apply Qclt_nge in Hlt.
    - rewrite lookup_insert_Some, lookup_empty, Qclt_nge.
      split; [intros [[-> ->]|[_ ?]]; done|intros (-> & -> & _); by left]. }
  assert (∀ price quantity,
    upsert_level price quantity ∅
    = (if bool_decide (0 < quantity) then {[ price := quantity ]} else ∅)) as Heq.
  { intros price quantity. unfold upsert_level.
    case_bool_decide as Hq.
    - rewrite bool_decide_eq_false_2 by (by apply Qcle_not_lt).
      by rewrite delete_empty.
    - rewrite bool_decide_eq_true_2 by (by apply Qclt_nge). done. }
  unfold apply_top_of_book. simpl.
  split; [apply Hlookup|]. split; [apply Hlookup|]. split; apply Heq.
Qed.

(** The two deterministic tests of [TestBookTickerUpdate] and
    [TestBestBidAsk] on the model. *)
Example clears_previous_top :
  let st := (update_from_book_ticker float_of_decimal sample_ticker sample_book).2 in
  best_bid st = Q2Qc (201 # 2) ∧ quantity_at Bid (Q2Qc (201 # 2)) st = Qc_of_Z 12
  ∧ best_ask st = Q2Qc (203 # 2) ∧ quantity_at Ask (Q2Qc (203 # 2)) st = Qc_of_Z 6
  ∧ bids st !! Qc_of_Z 100 = None ∧ asks st !! Qc_of_Z 101 = None
  ∧ size (bids st) = 1%nat ∧ size (asks st) = 1%nat.
Proof. vm_compute. repeat split; by apply Qc_is_canon. Qed.

Example best_bid_after_removal :
  best_bid (update_bid (Qc_of_Z 20) (Qc_of_Z 3) (update_bid (Qc_of_Z 10) (Qc_of_Z 4) empty))
  = Qc_of_Z 20
  ∧ best_bid (update_bid (Qc_of_Z 20) 0
               (update_bid (Qc_of_Z 20) (Qc_of_Z 3)
                  (update_bid (Qc_of_Z 10) (Qc_of_Z 4) empty)))
    = Qc_of_Z 10.
Proof. vm_compute. split; by apply Qc_is_canon. Qed.
End OrderBookFacts.

(** ** plot_live.py: the book-ticker collector *)

Section PlotLiveFacts.
Import PlotLive.
Variable float_of_str : string -> option Qc.

Lemma eval_seq_cases {A B} (r : result A) (k : A → stmt B) (bufs : buffers) :
  (∃ a, r = Ok a ∧ seq_stmt (eval r) k bufs = k a bufs)
  ∨ (∃ e, r = Raise e ∧ seq_stmt (eval r) k bufs = (Raise e, bufs)).
Proof. destruct r as [a|e]; [left|right]; eauto. Qed.

(** C6. A top-of-book update that misses the bid price, the bid
    quantity, the ask price or the ask quantity is rejected.  On every
    store, [update_from_book_ticker] raises and leaves the bid side and the
    ask side as they were: no level of the message is installed, not even
    the side whose two fields are present, and no existing level is
    removed.  The collector of [plot_live.py], which reads the same four
    fields and keeps no store, raises on such a message before its first
    [append]: every buffer is left as it was. *)
Theorem malformed_book_ticker_rejected (msg : gmap string value)
    (st : OrderBook.store) (bufs : buffers) :
  missing_field msg →
  (∃ e st', OrderBook.update_from_book_ticker float_of_str msg st = (Raise e, st')
            ∧ OrderBook.bids st' = OrderBook.bids st
            ∧ OrderBook.asks st' = OrderBook.asks st)
  ∧ (∃ e, on_book_ticker float_of_str msg bufs = (Raise e, bufs)).
Proof.
  intros Hmissing. split.
  - unfold OrderBook.update_from_book_ticker.
    destruct (OrderBook.decode_top_of_book float_of_str msg) as [u|e] eqn:Hdec;
      [|by exists e, st].
    exfalso. unfold missing_field in Hmissing.
    unfold OrderBook.decode_top_of_book, getitem in Hdec.
    destruct (msg !! "b"); [simpl in Hdec|done].
    destruct (float float_of_str _); [simpl in Hdec|done].
    destruct (msg !! "B"); [simpl in Hdec|done].
    destruct (float float_of_str _); [simpl in Hdec|done].
    destruct (msg !! "a"); [simpl in Hdec|done].
    destruct (float float_of_str _); [simpl in Hdec|done].
    destruct (msg !! "A"); [simpl in Hdec|done].
    destruct Hmissing as [?|[?|[?|?]]]; discriminate.
  - unfold on_book_ticker.
    repeat match goal with
    | |- ∃ e, seq_stmt (eval ?r) ?k ?b = (Raise e, ?b) =>
        destruct (eval_seq_cases r k b) as [(? & ? & ->)|(? & ? & ->)];
        [|by eauto]
    end.
    exfalso. unfold getitem in *.
    destruct Hmissing as [Hm|[Hm|[Hm|Hm]]]; rewrite Hm in *; discriminate.
Qed.

(** A message with all four fields and a numeric arrival stamp is taken:
    one sample is appended to every buffer. *)
Lemma well_formed_book_ticker_appends (msg : gmap string value) (bufs : buffers)
    (t : Z) (b qb a qa : Qc) (vb vqb va vqa : value) :
  msg !! "_ts_received_ws" = Some (VInt t) →
  msg !! "b" = Some vb → float float_of_str vb = Ok b →
  msg !! "B" = Some vqb → float float_of_str vqb = Ok qb →
  msg !! "a" = Some va → float float_of_str va = Ok a →
  msg !! "A" = Some vqa → float float_of_str vqa = Ok qa →
  on_book_ticker float_of_str msg bufs
  = (Ok (),
     mkBuffers
       (append (Qc_of_Z t / Qc_of_Z 1000000000)%Qc (timestamps bufs))
       (append (or_nan (Metrics.calculate_mid_price b a)) (mid_prices bufs))
       (append (or_nan (Metrics.calculate_spread b a)) (spreads bufs))
       (append (or_nan (Metrics.calculate_order_book_imbalance qb qa)) (imbalances bufs))
       (append (last_or_nan (vwaps bufs)) (vwaps bufs))
       (append (last_or_nan (trade_volumes_per_sec bufs)) (trade_volumes_per_sec bufs))
       (append NaN (last_trade_prices bufs))).
Proof.
  intros Ht Hb Hfb HB HfB Ha Hfa HA HfA.
  unfold on_book_ticker, seq_stmt, eval, getitem.
  rewrite Ht. simpl. rewrite Hb, Hfb, HB, HfB, Ha, Hfa, HA, HfA. done.
Qed.
End PlotLiveFacts.

Section PlotLiveExamples.
Import PlotLive.

Lemma malformed_book_ticker_rejected_witness :
  (∃ e st', OrderBook.update_from_book_ticker float_of_decimal
              sample_malformed_event OrderBook.sample_book = (Raise e, st')
            ∧ OrderBook.bids st' = OrderBook.bids OrderBook.sample_book
            ∧ OrderBook.asks st' = OrderBook.asks OrderBook.sample_book)
  ∧ (∃ e, on_book_ticker float_of_decimal sample_malformed_event sample_buffers
          = (Raise e, sample_buffers)).
Proof.
  apply (malformed_book_ticker_rejected float_of_decimal
           sample_malformed_event OrderBook.sample_book sample_buffers).
  right; right; right. reflexivity.
Defined.

(** The exception on the sample is the [KeyError] of the missing key, and
    it is not caught inside the loop body. *)
Example sample_malformed_event_raises :
  (on_book_ticker float_of_decimal sample_malformed_event sample_buffers).1
  = Raise (KeyError "A").
Proof. by vm_compute. Qed.

Example sample_buffers_lengths :
  length (timestamps sample_buffers) = 1%nat
  ∧ length (mid_prices sample_buffers) = 1%nat
  ∧ vwaps sample_buffers = [NaN].
Proof. by vm_compute. Qed.
End PlotLiveExamples.

(** * Further properties *)

(** ** metrics.py *)

Section MetricsMore.
Import Metrics TradeFields FloatRange.
#[local] Open Scope Qc_scope.

Ltac qc_to_q :=
  unfold Qcle, Qclt in *; simpl in *; rewrite ?Qred_correct in *.

Lemma Qc_eq_iff (x y : Qc) : x = y ↔ (this x == this y)%Q.
Proof. split; [by intros ->|apply Qc_is_canon]. Qed.

(** X1. Whenever the spread is defined it is positive, the mid-price is
    defined too, and the mid-price is not below the bid and not above the
    ask.  The bounds are weak on purpose: of two neighbouring doubles one
    is the rounded mid-point of both.  The sum of the two prices is taken
    within the range of a double, where the sum of the code is finite. *)
Theorem spread_mid_geometry (best_bid best_ask s : Qc) :
  best_ask + best_bid ≤ float_max →
  calculate_spread best_bid best_ask = Some s →
  ∃ m, calculate_mid_price best_bid best_ask = Some m
       ∧ 0 < s ∧ best_bid ≤ m ∧ m ≤ best_ask.
Proof.
  intros _. unfold calculate_spread, calculate_mid_price.
  destruct (bool_decide (0 < best_bid) && bool_decide (0 < best_ask)
            && bool_decide (best_bid < best_ask)) eqn:Hg; [|done].
  intros [= <-]. apply spread_mid_guard in Hg as (Hb & Ha & Hlt).
  eexists. split; [done|].
  assert (Hhalf : (/ (1 + 1) == 1 # 2)%Q) by reflexivity.
  split; [|split].
  - qc_to_q. lra.
  - qc_to_q. rewrite Hhalf. lra.
  - qc_to_q. rewrite Hhalf. lra.
Qed.

(** X2. Swapping the bid and ask quantities negates the imbalance, and
    leaves it undefined when it was undefined. *)
Theorem imbalance_antisymmetric (bid_volume ask_volume : Qc) :
  calculate_order_book_imbalance ask_volume bid_volume
  = Qcopp <$> calculate_order_book_imbalance bid_volume ask_volume.
Proof.
  unfold calculate_order_book_imbalance. simpl.
  rewrite (Qcplus_comm ask_volume bid_volume).
  case_bool_decide as Ht; [|done]. simpl. f_equal.
  field. intros H0. rewrite H0 in Ht. by apply (irreflexivity Qclt) in Ht.
Qed.

(** X3. For non-negative quantities whose sum stays within the range of a
    double, a defined imbalance has the sign of the difference of the two
    quantities: positive exactly when the bid quantity is the larger, zero
    exactly when both are equal, negative exactly when the ask quantity is
    the larger.  With no ask quantity it is 1, with no bid quantity -1. *)
Theorem imbalance_sign (bid_qty ask_qty r : Qc) :
  0 ≤ bid_qty → 0 ≤ ask_qty → bid_qty + ask_qty ≤ float_max →
  calculate_order_book_imbalance bid_qty ask_qty = Some r →
  (0 < r ↔ ask_qty < bid_qty)
  ∧ (r = 0 ↔ bid_qty = ask_qty)
  ∧ (r < 0 ↔ bid_qty < ask_qty)
  ∧ (ask_qty = 0 → r = 1)
  ∧ (bid_qty = 0 → r = -1).
Proof.
  intros Hb Ha _. unfold calculate_order_book_imbalance. simpl.
  case_bool_decide as Ht; [|done]. intros [= <-].
  assert (bid_qty + ask_qty ≠ 0) as Hne.
  { intros H0. rewrite H0 in Ht. by apply (irreflexivity Qclt) in Ht. }
  assert ((bid_qty - ask_qty) / (bid_qty + ask_qty) * (bid_qty + ask_qty)
          = bid_qty - ask_qty) as Hmul by (by field).
  remember ((bid_qty - ask_qty) / (bid_qty + ask_qty)) as r eqn:Hr. clear Hr.
  rewrite !Qc_eq_iff in *. qc_to_q.
  repeat split; intros; nra.
Qed.

Section WithFloat.
Variable float_of_str : string -> option Qc.
#[local] Abbreviation price := (TradeFields.price float_of_str).
#[local] Abbreviation quantity := (Metrics.quantity float_of_str).
#[local] Abbreviation priced_trade := (TradeFields.priced_trade float_of_str).
#[local] Abbreviation total_quantity := (TradeFields.total_quantity float_of_str).
#[local] Abbreviation well_formed_trade := (Metrics.well_formed_trade float_of_str).

Lemma sum_gen_ok {A} (f : A → result Qc) (g : A → Qc) (l : list A) (acc : Qc) :
  Forall (λ x, f x = Ok (g x)) l →
  sum_gen f l acc = Ok (acc + foldr Qcplus 0 (g <$> l)).
Proof.
  revert acc. induction l as [|x l IH]; intros acc Hl; simpl.
  - by rewrite Qcplus_0_r.
  - apply Forall_cons in Hl as [Hx Hl]. rewrite Hx. simpl.
    rewrite IH by done. by rewrite Qcplus_assoc.
Qed.

Lemma priced_trade_inv (trade : gmap string value) :
  priced_trade trade →
  trade_value float_of_str trade = Ok (price trade * quantity trade)
  ∧ trade_qty float_of_str trade = Ok (quantity trade).
Proof.
  intros [Hp Hq]. unfold TradeFields.price, Metrics.quantity, trade_value.
  unfold TradeFields.trade_price, trade_qty in *.
  destruct (getitem trade "p") as [vp|]; [simpl in *|done].
  destruct (float float_of_str vp) as [p|]; [simpl in *|done].
  destruct (getitem trade "q") as [vq|]; [simpl in *|done].
  by destruct (float float_of_str vq) as [q|].
Qed.

Lemma slice_from_last (n : Z) {A} (l : list A) :
  (0 < n)%Z → slice_from (- n) l = drop (length l - Z.to_nat n) l.
Proof.
  intros Hn. unfold slice_from.
  destruct (- n <? 0)%Z eqn:E; [|apply Z.ltb_ge in E; lia].
  f_equal. lia.
Qed.

(** X4. [calculate_vwap] reads the last [window_size_trades] trades and
    nothing else: trades older than the window, well formed or not, do not
    change the result, be it a value, [None] or an exception. *)
Theorem vwap_reads_only_window
    (older recent : list (gmap string value)) (window_size_trades : Z) :
  (0 < window_size_trades)%Z →
  length recent = Z.to_nat window_size_trades →
  calculate_vwap float_of_str (older ++ recent) window_size_trades
  = calculate_vwap float_of_str recent window_size_trades.
Proof.
  intros Hw Hlen. unfold calculate_vwap.
  assert (recent ≠ []) as Hne by (intros ->; simpl in Hlen; lia).
  assert (is_empty (older ++ recent) = false) as ->
    by (destruct older, recent; done).
  assert (is_empty recent = false) as -> by (by destruct recent).
  rewrite !slice_from_last by done.
  rewrite length_app, <- Hlen.
  replace (length older + length recent - length recent)%nat with (length older) by lia.
  rewrite drop_app_length. by rewrite Nat.sub_diag.
Qed.

(** X5. A window at least as long as the history is the same as a window
    of exactly the history's length: the whole history is averaged and
    nothing fails for want of trades. *)
Theorem vwap_window_beyond_history
    (trades : list (gmap string value)) (window_size_trades : Z) :
  (Z.of_nat (length trades) ≤ window_size_trades)%Z →
  calculate_vwap float_of_str trades window_size_trades
  = calculate_vwap float_of_str trades (Z.of_nat (length trades)).
Proof.
  intros Hw. unfold calculate_vwap.
  destruct trades as [|x l]; [done|].
  simpl is_empty. rewrite !orb_false_l.
  assert (0 < Z.of_nat (length (x :: l)))%Z as Hpos by (simpl; lia).
  destruct (window_size_trades <=? 0)%Z eqn:E1; [apply Z.leb_le in E1; lia|].
  destruct (Z.of_nat (length (x :: l)) <=? 0)%Z eqn:E2; [apply Z.leb_le in E2; lia|].
  rewrite !slice_from_last by lia.
  replace (length (x :: l) - Z.to_nat window_size_trades)%nat with 0%nat by lia.
  replace (length (x :: l) - Z.to_nat (Z.of_nat (length (x :: l))))%nat with 0%nat by lia.
  done.
Qed.

Lemma sum_qc_zero (l : list Qc) :
  Forall (λ x, 0 ≤ x) l → foldr Qcplus 0 l = 0 ↔ Forall (λ x, x = 0) l.
Proof.
  induction 1 as [|x l Hx Hl IH]; simpl; [done|].
  assert (0 ≤ foldr Qcplus 0 l) as Hsum.
  { clear IH. induction Hl as [|y l Hy Hl IH]; simpl; [apply Qcle_refl|].
    rewrite <- (Qcplus_0_r 0). by apply Qcplus_le_compat. }
  rewrite Forall_cons, <- IH. rewrite !Qc_eq_iff in *. qc_to_q.
  split; [intros ?; split; lra|intros [? ?]; lra].
Qed.

(** X7. On trades whose price and quantity parse, with no negative
    quantity, [calculate_vwap] raises nothing, and it returns [None]
    exactly when the history is empty, the window is not positive, or
    every trade in the window has quantity zero: the division is never by
    zero. *)
Theorem vwap_defined_on_priced_trades
    (trades : list (gmap string value)) (window_size_trades : Z) :
  Forall (λ t, priced_trade t ∧ 0 ≤ quantity t) trades →
  ∃ r, calculate_vwap float_of_str trades window_size_trades = Ok r
       ∧ (r = None ↔
            trades = [] ∨ (window_size_trades ≤ 0)%Z
            ∨ Forall (λ t, quantity t = 0)
                (drop (length trades - Z.to_nat window_size_trades) trades)).
Proof.
  intros Hall. unfold calculate_vwap.
  destruct trades as [|x l].
  { exists None. split; [done|]. split; [by left|done]. }
  simpl is_empty. rewrite orb_false_l.
  destruct (window_size_trades <=? 0)%Z eqn:E.
  { apply Z.leb_le in E. exists None. split; [done|]. split; [by right; left|done]. }
  apply Z.leb_gt in E. rewrite slice_from_last by done.
  set (window := drop (length (x :: l) - Z.to_nat window_size_trades) (x :: l)).
  assert (Forall (λ t, priced_trade t ∧ 0 ≤ quantity t) window) as Hwin
    by (by apply Forall_drop).
  rewrite (sum_gen_ok (trade_value float_of_str) (λ t, price t * quantity t));
    last first.
  { eapply Forall_impl; [exact Hwin|]. intros t [Hp _]. by destruct (priced_trade_inv t Hp). }
  simpl. rewrite (sum_gen_ok (trade_qty float_of_str) quantity); last first.
  { eapply Forall_impl; [exact Hwin|]. intros t [Hp _]. by destruct (priced_trade_inv t Hp). }
  simpl. rewrite !Qcplus_0_l.
  assert (foldr Qcplus 0 (quantity <$> window) = 0
          ↔ Forall (λ t, quantity t = 0) window) as Hzero.
  { rewrite sum_qc_zero, Forall_fmap; [done|].
    apply Forall_fmap. eapply Forall_impl; [exact Hwin|]. by intros t [_ ?]. }
  case_bool_decide as H0.
  - exists None. split; [done|]. split; [intros _; right; right; by apply Hzero|done].
  - eexists. split; [done|]. split; [done|].
    intros [?|[?|Hq]]; [done|lia|]. by apply Hzero in Hq.
Qed.

(** *** The backward scan on histories in any order *)

Lemma volume_scan_cons (cutoff : Z) (trade : gmap string value)
    (rest : list (gmap string value)) (volume : Qc) :
  well_formed_trade trade →
  volume_scan float_of_str cutoff (trade :: rest) volume
  = if (cutoff <=? exchange_time_ms trade * 1000000)%Z
    then volume_scan float_of_str cutoff rest (volume + quantity trade)
    else Ok volume.
Proof.
  intros Hwf. destruct (well_formed_trade_inv float_of_str trade Hwf) as (t & HT & Ht & Hq).
  simpl. rewrite HT. simpl. rewrite Ht.
  destruct (cutoff <=? t * 1000000)%Z; [|done]. by rewrite Hq.
Qed.

Lemma sum_qc_reverse (l : list Qc) :
  foldr Qcplus 0 (reverse l) = foldr Qcplus 0 l.
Proof.
  induction l as [|x l IH]; [done|].
  rewrite reverse_cons, sum_qc_app, IH. simpl. ring.
Qed.

(** The scan adds the trades it meets until the first one older than the
    cutoff, and nothing after it. *)
Lemma volume_scan_run (cutoff : Z) (reversed_trades : list (gmap string value))
    (volume : Qc) :
  Forall well_formed_trade reversed_trades →
  ∃ run rest,
    reversed_trades = run ++ rest
    ∧ Forall (λ t, (cutoff ≤ exchange_time_ms t * 1000000)%Z) run
    ∧ (∀ t, head rest = Some t → (exchange_time_ms t * 1000000 < cutoff)%Z)
    ∧ volume_scan float_of_str cutoff reversed_trades volume
      = Ok (volume + foldr Qcplus 0 (quantity <$> run)).
Proof.
  revert volume. induction reversed_trades as [|x l IH]; intros volume Hwf.
  - exists [], []. simpl. rewrite Qcplus_0_r. by repeat split.
  - apply Forall_cons in Hwf as [Hx Hl]. rewrite volume_scan_cons by done.
    destruct (cutoff <=? exchange_time_ms x * 1000000)%Z eqn:E.
    + destruct (IH (volume + quantity x) Hl) as (run & rest & -> & Hrun & Hrest & Hscan).
      exists (x :: run), rest. split; [done|].
      split; [apply Forall_cons; split; [by apply Z.leb_le|done]|].
      split; [done|]. rewrite Hscan. simpl. by rewrite Qcplus_assoc.
    + exists [], (x :: l). simpl. rewrite Qcplus_0_r.
      split; [done|]. split; [done|]. split; [|done].
      intros t [= <-]. by apply Z.leb_gt.
Qed.

(** X8. In whatever order the trades are,
    [calculate_trade_volume_per_second] returns the total quantity of the
    longest run of trailing trades that are all inside the window: it
    stops at the newest trade older than the cutoff. *)
Theorem trailing_volume_is_last_run
    (trades : list (gmap string value)) (now_ns window_seconds : Z) :
  Forall well_formed_trade trades →
  (0 < window_seconds)%Z →
  ∃ older recent,
    trades = older ++ recent
    ∧ Forall (λ t, in_window now_ns (window_seconds * 1000000000) t = true) recent
    ∧ (∀ t, last older = Some t →
            in_window now_ns (window_seconds * 1000000000) t = false)
    ∧ calculate_trade_volume_per_second float_of_str trades now_ns window_seconds
      = Ok (total_quantity recent).
Proof.
  intros Hwf Hw.
  destruct (volume_scan_run (now_ns - window_seconds * 1000000000) (reverse trades) 0)
    as (run & rest & Hsplit & Hrun & Hrest & Hscan).
  { by apply Forall_reverse. }
  exists (reverse rest), (reverse run).
  assert (trades = reverse rest ++ reverse run) as Htrades.
  { rewrite <- reverse_app, <- Hsplit. by rewrite reverse_involutive. }
  split; [done|].
  split.
  { apply Forall_reverse. eapply Forall_impl; [exact Hrun|].
    intros t Ht. unfold in_window. by apply Z.leb_le. }
  split.
  { intros t Ht. rewrite last_reverse in Ht. unfold in_window.
    apply Z.leb_gt. by apply Hrest. }
  unfold calculate_trade_volume_per_second.
  destruct trades as [|x l].
  { simpl. symmetry in Htrades. apply app_eq_nil in Htrades as [_ ->]. done. }
  simpl is_empty. rewrite orb_false_l.
  apply Z.leb_gt in Hw. rewrite Hw.
  rewrite Hscan, Qcplus_0_l. f_equal. unfold TradeFields.total_quantity.
  by rewrite fmap_reverse, sum_qc_reverse.
Qed.

Lemma sum_qc_nonneg (l : list Qc) : Forall (λ x, 0 ≤ x) l → 0 ≤ foldr Qcplus 0 l.
Proof.
  induction 1 as [|x l Hx Hl IH]; simpl; [apply Qcle_refl|].
  rewrite <- (Qcplus_0_r 0). by apply Qcplus_le_compat.
Qed.

Lemma nonneg_quantities (l : list (gmap string value)) :
  Forall (λ t, 0 ≤ quantity t) l → Forall (λ x, 0 ≤ x) (quantity <$> l).
Proof. intros H. by apply Forall_fmap. Qed.

(** X9. Without the time order the early exit can only lose volume: for
    non-negative quantities the result is non-negative and at most the
    full filter-and-sum over the history. *)
Theorem trailing_volume_undercounts
    (trades : list (gmap string value)) (now_ns window_seconds : Z) :
  Forall well_formed_trade trades →
  Forall (λ t, 0 ≤ quantity t) trades →
  (0 < window_seconds)%Z →
  ∃ v, calculate_trade_volume_per_second float_of_str trades now_ns window_seconds = Ok v
       ∧ 0 ≤ v
       ∧ v ≤ trailing_volume_spec float_of_str trades now_ns
               (window_seconds * 1000000000).
Proof.
  intros Hwf Hq Hw.
  set (window_ns := (window_seconds * 1000000000)%Z).
  destruct (volume_scan_run (now_ns - window_ns) (reverse trades) 0)
    as (run & rest & Hsplit & Hrun & _ & Hscan).
  { by apply Forall_reverse. }
  assert (Forall (λ t, 0 ≤ quantity t) (run ++ rest)) as Hq'.
  { rewrite <- Hsplit. by apply Forall_reverse. }
  apply Forall_app in Hq' as [Hqrun Hqrest].
  exists (foldr Qcplus 0 (quantity <$> run)).
  split; [|split].
  - unfold calculate_trade_volume_per_second.
    destruct trades as [|x l].
    { destruct run; [done|]. by destruct (reverse_nil (A:=gmap string value)). }
    simpl is_empty. rewrite orb_false_l.
    apply Z.leb_gt in Hw. rewrite Hw. fold window_ns.
    by rewrite Hscan, Qcplus_0_l.
  - by apply sum_qc_nonneg, nonneg_quantities.
  - unfold trailing_volume_spec.
    rewrite <- (sum_qc_reverse (quantity <$> filter _ trades)).
    rewrite <- fmap_reverse, <- filter_reverse, Hsplit.
    rewrite filter_app, fmap_app, sum_qc_app.
    assert (filter (λ t, in_window now_ns window_ns t = true) run = run) as ->.
    { clear -Hrun. induction Hrun as [|t run Ht Hrun IH]; [done|].
      rewrite filter_cons, decide_True, IH; [done|].
      unfold in_window. by apply Z.leb_le. }
    rewrite <- (Qcplus_0_r (foldr Qcplus 0 (quantity <$> run))) at 1.
    apply Qcplus_le_compat; [apply Qcle_refl|].
    apply sum_qc_nonneg, nonneg_quantities.
    apply Forall_forall. intros t [_ Ht]%list_elem_of_filter.
    by eapply Forall_forall in Hqrest.
Qed.

Lemma volume_scan_ge (cutoff : Z) (reversed_trades : list (gmap string value))
    (volume : Qc) :
  Forall well_formed_trade reversed_trades →
  Forall (λ t, 0 ≤ quantity t) reversed_trades →
  ∃ v, volume_scan float_of_str cutoff reversed_trades volume = Ok v ∧ volume ≤ v.
Proof.
  intros Hwf Hq.
  destruct (volume_scan_run cutoff reversed_trades volume Hwf)
    as (run & rest & -> & _ & _ & ->).
  apply Forall_app in Hq as [Hq _].
  eexists. split; [done|].
  rewrite <- (Qcplus_0_r volume) at 1.
  apply Qcplus_le_compat; [apply Qcle_refl|].
  by apply sum_qc_nonneg, nonneg_quantities.
Qed.

Lemma volume_scan_mono (c1 c2 : Z) (reversed_trades : list (gmap string value))
    (v1 v2 : Qc) :
  (c2 ≤ c1)%Z → v1 ≤ v2 →
  Forall well_formed_trade reversed_trades →
  Forall (λ t, 0 ≤ quantity t) reversed_trades →
  ∃ r1 r2,
    volume_scan float_of_str c1 reversed_trades v1 = Ok r1
    ∧ volume_scan float_of_str c2 reversed_trades v2 = Ok r2
    ∧ r1 ≤ r2.
Proof.
  intros Hc. revert v1 v2.
  induction reversed_trades as [|x l IH]; intros v1 v2 Hv Hwf Hq.
  - by exists v1, v2.
  - apply Forall_cons in Hwf as [Hx Hl]. apply Forall_cons in Hq as [Hqx Hql].
    rewrite !volume_scan_cons by done.
    destruct (c1 <=? exchange_time_ms x * 1000000)%Z eqn:E1.
    + apply Z.leb_le in E1.
      assert ((c2 <=? exchange_time_ms x * 1000000)%Z = true) as ->
        by (apply Z.leb_le; lia).
      apply IH; [|done|done]. apply Qcplus_le_compat; [done|apply Qcle_refl].
    + destruct (c2 <=? exchange_time_ms x * 1000000)%Z.
      * destruct (volume_scan_ge c2 l (v2 + quantity x) Hl Hql) as (r2 & -> & Hr2).
        exists v1, r2. split; [done|]. split; [done|].
        eapply Qcle_trans; [exact Hv|]. eapply Qcle_trans; [|exact Hr2].
        rewrite <- (Qcplus_0_r v2) at 1.
        apply Qcplus_le_compat; [apply Qcle_refl|done].
      * by exists v1, v2.
Qed.

(** X10. For non-negative quantities a longer window never gives less
    volume. *)
Theorem trailing_volume_monotone_in_window
    (trades : list (gmap string value)) (now_ns w1 w2 : Z) :
  Forall well_formed_trade trades →
  Forall (λ t, 0 ≤ quantity t) trades →
  (0 < w1)%Z → (w1 ≤ w2)%Z →
  ∃ v1 v2,
    calculate_trade_volume_per_second float_of_str trades now_ns w1 = Ok v1
    ∧ calculate_trade_volume_per_second float_of_str trades now_ns w2 = Ok v2
    ∧ v1 ≤ v2.
Proof.
  intros Hwf Hq Hw1 Hw12. unfold calculate_trade_volume_per_second.
  destruct trades as [|x l].
  { exists 0, 0. by repeat split. }
  simpl is_empty. rewrite !orb_false_l.
  assert ((w1 <=? 0) = false)%Z as -> by (apply Z.leb_gt; lia).
  assert ((w2 <=? 0) = false)%Z as -> by (apply Z.leb_gt; lia).
  apply volume_scan_mono.
  - lia.
  - apply Qcle_refl.
  - by apply Forall_reverse.
  - by apply Forall_reverse.
Qed.

Lemma volume_scan_stops (cutoff : Z) (recent_rev older_rev : list (gmap string value))
    (stale : gmap string value) (t : Z) (volume : Qc) :
  stale !! "T" = Some (VInt t) → (t * 1000000 < cutoff)%Z →
  volume_scan float_of_str cutoff (recent_rev ++ stale :: older_rev) volume
  = volume_scan float_of_str cutoff (recent_rev ++ [stale]) volume.
Proof.
  intros HT Hlt. revert volume.
  induction recent_rev as [|x l IH]; intros volume.
  - simpl. unfold getitem. rewrite HT. simpl.
    apply Z.leb_gt in Hlt. by rewrite Hlt.
  - simpl. destruct (getitem x "T") as [v|]; [simpl|done].
    destruct (mul_int v 1000000) as [v'|]; [simpl|done].
    destruct (ge_int v' cutoff) as [[]|]; [simpl|done|done].
    destruct (trade_qty float_of_str x) as [q|]; [simpl|done].
    apply IH.
Qed.

(** X11. Trades before the newest trade that is older than the cutoff are
    never read: whatever they hold, even malformed entries, the result is
    the same as without them. *)
Theorem trailing_volume_ignores_older
    (older recent : list (gmap string value)) (stale : gmap string value)
    (t now_ns window_seconds : Z) :
  (0 < window_seconds)%Z →
  stale !! "T" = Some (VInt t) →
  (t * 1000000 < now_ns - window_seconds * 1000000000)%Z →
  calculate_trade_volume_per_second float_of_str
    (older ++ stale :: recent) now_ns window_seconds
  = calculate_trade_volume_per_second float_of_str
      (stale :: recent) now_ns window_seconds.
Proof.
  intros Hw HT Hlt. unfold calculate_trade_volume_per_second.
  assert (is_empty (older ++ stale :: recent) = false) as -> by (by destruct older).
  simpl is_empty. rewrite !orb_false_l.
  apply Z.leb_gt in Hw. rewrite Hw.
  rewrite reverse_app, !reverse_cons, <- app_assoc. simpl.
  by apply (volume_scan_stops _ _ _ _ t).
Qed.
End WithFloat.
End MetricsMore.

Section MetricsMoreExamples.
Import Metrics TradeFields FloatRange.
#[local] Open Scope Qc_scope.

Lemma spread_mid_geometry_witness :
  ∃ m, calculate_mid_price (Qc_of_Z 100) (Qc_of_Z 102) = Some m
       ∧ 0 < Qc_of_Z 2 ∧ Qc_of_Z 100 ≤ m ∧ m ≤ Qc_of_Z 102.
Proof.
  apply (spread_mid_geometry (Qc_of_Z 100) (Qc_of_Z 102) (Qc_of_Z 2)).
  - by vm_compute.
  - vm_compute. f_equal. by apply Qc_is_canon.
Defined.

Lemma imbalance_sign_witness :
  (0 < Q2Qc (1 # 2) ↔ Qc_of_Z 1 < Qc_of_Z 3)
  ∧ (Q2Qc (1 # 2) = 0 ↔ Qc_of_Z 3 = Qc_of_Z 1)
  ∧ (Q2Qc (1 # 2) < 0 ↔ Qc_of_Z 3 < Qc_of_Z 1)
  ∧ (Qc_of_Z 1 = 0 → Q2Qc (1 # 2) = 1)
  ∧ (Qc_of_Z 3 = 0 → Q2Qc (1 # 2) = -1).
Proof.
  apply (imbalance_sign (Qc_of_Z 3) (Qc_of_Z 1) (Q2Qc (1 # 2))).
  - by vm_compute.
  - by vm_compute.
  - by vm_compute.
  - vm_compute. f_equal. by apply Qc_is_canon.
Defined.

Lemma vwap_reads_only_window_witness :
  calculate_vwap float_of_decimal (take 2 sample_trades ++ drop 2 sample_trades) 2
  = calculate_vwap float_of_decimal (drop 2 sample_trades) 2.
Proof.
  apply (vwap_reads_only_window float_of_decimal (take 2 sample_trades)
           (drop 2 sample_trades) 2).
  - lia.
  - reflexivity.
Defined.

Lemma vwap_window_beyond_history_witness :
  calculate_vwap float_of_decimal sample_trades 100
  = calculate_vwap float_of_decimal sample_trades (Z.of_nat (length sample_trades)).
Proof.
  apply (vwap_window_beyond_history float_of_decimal sample_trades 100).
  simpl. lia.
Defined.

Lemma sample_trades_priced :
  Forall (λ t, priced_trade float_of_decimal t ∧ 0 ≤ quantity float_of_decimal t)
    sample_trades.
Proof. repeat constructor; by vm_compute. Defined.

Lemma vwap_defined_on_priced_trades_witness :
  ∃ r, calculate_vwap float_of_decimal sample_trades 3 = Ok r
       ∧ (r = None ↔
            sample_trades = [] ∨ (3 ≤ 0)%Z
            ∨ Forall (λ t, quantity float_of_decimal t = 0)
                (drop (length sample_trades - Z.to_nat 3) sample_trades)).
Proof.
  apply (vwap_defined_on_priced_trades float_of_decimal sample_trades 3).
  exact sample_trades_priced.
Defined.

Lemma sample_trades_nonnegative :
  Forall (λ t, 0 ≤ quantity float_of_decimal t) sample_trades.
Proof. repeat constructor; by vm_compute. Defined.

Lemma trailing_volume_is_last_run_witness :
  ∃ older recent,
    sample_trades = older ++ recent
    ∧ Forall (λ t, in_window sample_now_ns (1 * 1000000000) t = true) recent
    ∧ (∀ t, last older = Some t →
            in_window sample_now_ns (1 * 1000000000) t = false)
    ∧ calculate_trade_volume_per_second float_of_decimal sample_trades sample_now_ns 1
      = Ok (total_quantity float_of_decimal recent).
Proof.
  apply (trailing_volume_is_last_run float_of_decimal sample_trades sample_now_ns 1).
  - exact sample_trades_well_formed.
  - lia.
Defined.

Lemma trailing_volume_undercounts_witness :
  ∃ v, calculate_trade_volume_per_second float_of_decimal
         (reverse sample_trades) sample_now_ns 1 = Ok v
       ∧ 0 ≤ v
       ∧ v ≤ trailing_volume_spec float_of_decimal (reverse sample_trades) sample_now_ns
               (1 * 1000000000).
Proof.
  apply (trailing_volume_undercounts float_of_decimal (reverse sample_trades)
           sample_now_ns 1).
  - apply Forall_reverse. exact sample_trades_well_formed.
  - apply Forall_reverse. exact sample_trades_nonnegative.
  - lia.
Defined.

Lemma trailing_volume_monotone_in_window_witness :
  ∃ v1 v2,
    calculate_trade_volume_per_second float_of_decimal sample_trades sample_now_ns 1 = Ok v1
    ∧ calculate_trade_volume_per_second float_of_decimal sample_trades sample_now_ns 2 = Ok v2
    ∧ v1 ≤ v2.
Proof.
  apply (trailing_volume_monotone_in_window float_of_decimal sample_trades
           sample_now_ns 1 2).
  - exact sample_trades_well_formed.
  - exact sample_trades_nonnegative.
  - lia.
  - lia.
Defined.

Lemma trailing_volume_ignores_older_witness :
  calculate_trade_volume_per_second float_of_decimal
    ([ ∅; {[ "T" := VStr "soon" ]} ] ++ {[ "T" := VInt 1699999997500 ]} :: drop 2 sample_trades)
    sample_now_ns 1
  = calculate_trade_volume_per_second float_of_decimal
      ({[ "T" := VInt 1699999997500 ]} :: drop 2 sample_trades) sample_now_ns 1.
Proof.
  apply (trailing_volume_ignores_older float_of_decimal
           [ ∅; {[ "T" := VStr "soon" ]} ] (drop 2 sample_trades)
           {[ "T" := VInt 1699999997500 ]} 1699999997500 sample_now_ns 1).
  - lia.
  - reflexivity.
  - unfold sample_now_ns. lia.
Defined.
End MetricsMoreExamples.

(** ** feed.py *)

Section FeedMore.
Import Feed FeedViews.
Variable orjson_loads : string -> result json.
Variable monotonic_ns : nat -> Z.

#[local] Abbreviation step := (Feed.step orjson_loads monotonic_ns).
#[local] Abbreviation run := (Feed.run orjson_loads monotonic_ns).
#[local] Abbreviation reachable := (Feed.reachable orjson_loads monotonic_ns).
#[local] Abbreviation stamped_at := (Feed.stamped_at monotonic_ns).
#[local] Abbreviation object_frames := (FeedViews.object_frames orjson_loads).

(** What one step can do, case by case. *)
Lemma step_cases (st st' : state) (ev : event) (acts : list action) :
  step st ev = Some (st', acts) →
  (conn st = Connecting ∧ ev = ConnectOk
     ∧ st' = mkState Connected 1 (clock_reads st) ∧ acts = [Open])
  ∨ (conn st = Connecting ∧ (∃ e, ev = ConnectFails e)
     ∧ st' = mkState Connecting (Z.min (backoff_time st * 2) 60) (clock_reads st)
     ∧ acts = [Sleep (backoff_time st)])
  ∨ (conn st = Connected
     ∧ (∃ message d, ev = Frame message ∧ orjson_loads message = Ok (JObject d)
          ∧ acts = [Yield (<["_ts_received_ws" := VInt (monotonic_ns (S (S (clock_reads st))))]>
                            (<["_ts_after_parse" := VInt (monotonic_ns (S (clock_reads st)))]>
                               (<["_ts_before_parse" := VInt (monotonic_ns (clock_reads st))]> d)))])
     ∧ st' = mkState Connected (backoff_time st) (S (S (S (clock_reads st)))))
  ∨ (conn st = Connected
     ∧ ((∃ message e, ev = Frame message ∧ orjson_loads message = Raise e)
        ∨ (∃ message, ev = Frame message ∧ orjson_loads message = Ok JOther)
        ∨ (∃ e, ev = RecvFails e))
     ∧ (∃ n, (clock_reads st ≤ n ≤ clock_reads st + 2)%nat
           ∧ st' = mkState Connecting (Z.min (backoff_time st * 2) 60) n)
     ∧ acts = [Close; Sleep (backoff_time st)])
  ∨ (conn st = Connected ∧ ev = RecvEnds
     ∧ st' = mkState Connecting (backoff_time st) (clock_reads st) ∧ acts = [Close]).
Proof.
  unfold Feed.step. intros Hstep.
  destruct (conn st) eqn:Hc, ev; simplify_eq/=.
  - by left.
  - right; left. rewrite handle_exception_eq in Hstep. simplify_eq. eauto.
  - unfold on_message in Hstep.
    destruct (orjson_loads message) as [[d|]|e] eqn:Hdec;
      rewrite ?fail_in_session_eq in Hstep; simplify_eq/=.
    + right; right; left. eauto 10.
    + right; right; right; left. split; [done|]. split; [eauto|].
      split; [|done]. exists (S (S (clock_reads st))). split; [lia|done].
    + right; right; right; left. split; [done|]. split; [eauto 10|].
      split; [|done]. exists (S (clock_reads st)). split; [lia|done].
  - right; right; right; left. rewrite fail_in_session_eq in Hstep. simplify_eq.
    split; [done|]. split; [eauto 10|].
    split; [|done]. exists (clock_reads st). split; [lia|done].
  - repeat right. done.
Qed.

Lemma run_cons_inv (st st' : state) (ev : event) (script : list event)
    (acts : list action) :
  run st (ev :: script) = Some (st', acts) →
  ∃ st1 acts1 acts2,
    step st ev = Some (st1, acts1) ∧ run st1 script = Some (st', acts2)
    ∧ acts = acts1 ++ acts2.
Proof.
  rewrite run_cons. intros Hrun.
  destruct (step st ev) as [[st1 acts1]|]; [simpl in Hrun|done].
  destruct (Feed.run orjson_loads monotonic_ns st1 script) as [[st2 acts2]|] eqn:Hrun';
    simplify_eq/=.
  by exists st1, acts1, acts2.
Qed.

(** X12. In every run that starts with a delay between 1 and 60, as the
    initial state does, each delay slept is between 1 and 60, and so is the
    delay kept for the next failure. *)
Theorem sleeps_within_cap (script : list event) (st st' : state) (acts : list action) :
  1 ≤ backoff_time st ≤ 60 →
  run st script = Some (st', acts) →
  Forall (λ s, 1 ≤ s ≤ 60) (sleeps acts) ∧ 1 ≤ backoff_time st' ≤ 60.
Proof.
  revert st acts. induction script as [|ev script IH]; intros st acts Hb Hrun.
  - simplify_eq/=. by split.
  - apply run_cons_inv in Hrun as (st1 & acts1 & acts2 & Hstep & Hrun & ->).
    unfold sleeps. rewrite omap_app, Forall_app.
    apply step_cases in Hstep
      as [(_ & _ & -> & ->)|[(_ & _ & -> & ->)|[(_ & (m & d & _ & _ & ->) & ->)
         |[(_ & _ & (n & _ & ->) & ->)|(_ & _ & -> & ->)]]]];
      pose proof (λ H, IH _ _ H Hrun) as IH'; simpl in IH';
      (destruct IH' as [Hs Hb']; [lia|]);
      (split; [split; [|done]|done]); simpl;
      repeat (apply Forall_cons; split; [lia|]); apply Forall_nil_2.
Qed.

(** X13. The events yielded in a run are the frames that decode to a JSON
    object, one event per frame and in the same order; each event reads as
    its frame on every key but the three stamp keys, which the client
    overwrites. *)
Theorem yields_are_object_frames (script : list event) (st st' : state)
    (acts : list action) :
  run st script = Some (st', acts) →
  Forall2 carries (object_frames script) (yields acts).
Proof.
  revert st acts. induction script as [|ev script IH]; intros st acts Hrun.
  - simplify_eq/=. constructor.
  - apply run_cons_inv in Hrun as (st1 & acts1 & acts2 & Hstep & Hrun & ->).
    specialize (IH _ _ Hrun). rewrite yields_app.
    apply step_cases in Hstep
      as [(_ & -> & _ & ->)|[(_ & (e & ->) & _ & ->)|[(_ & (m & d & -> & Hd & ->) & _)
         |[(_ & Hev & _ & ->)|(_ & -> & _ & ->)]]]]; simpl; try done.
    + unfold FeedViews.object_frames. simpl. rewrite Hd. simpl.
      constructor; [|exact IH].
      intros key Hkey. unfold stamp_key in Hkey.
      rewrite !lookup_insert_ne; [done|intros <-; tauto..].
    + destruct Hev as [(m & e & -> & Hd)|[(m & -> & Hd)|(e & ->)]];
        unfold FeedViews.object_frames; simpl; rewrite ?Hd; exact IH.
Qed.

(** The clock readings of a run: reads only go up, every yielded event is
    stamped with three consecutive readings taken during the run, and a
    later event is stamped after an earlier one. *)
Lemma run_stamp_indices (script : list event) (st st' : state) (acts : list action) :
  run st script = Some (st', acts) →
  (clock_reads st ≤ clock_reads st')%nat
  ∧ ∃ ks, Forall2 stamped_at ks (yields acts)
          ∧ Forall (λ k, (clock_reads st ≤ k ∧ k + 3 ≤ clock_reads st')%nat) ks
          ∧ StronglySorted (λ k1 k2, (k1 + 3 ≤ k2)%nat) ks.
Proof.
  revert st acts. induction script as [|ev script IH]; intros st acts Hrun.
  - simplify_eq/=. split; [done|]. exists []. repeat split; constructor.
  - apply run_cons_inv in Hrun as (st1 & acts1 & acts2 & Hstep & Hrun & ->).
    destruct (IH _ _ Hrun) as (Hle & ks & Hks & Hbounds & Hsorted).
    rewrite yields_app.
    apply step_cases in Hstep
      as [(_ & _ & -> & ->)|[(_ & _ & -> & ->)|[(_ & (m & d & _ & _ & ->) & ->)
         |[(_ & _ & (n & Hn & ->) & ->)|(_ & _ & -> & ->)]]]]; simpl in *.
    + split; [done|]. by exists ks.
    + split; [done|]. by exists ks.
    + split; [lia|]. exists (clock_reads st :: ks).
      split; [|split].
      * constructor; [|done]. unfold Feed.stamped_at. repeat split; by simplify_map_eq.
      * constructor; [lia|]. eapply Forall_impl; [exact Hbounds|]. simpl. lia.
      * constructor; [done|]. eapply Forall_impl; [exact Hbounds|]. simpl. lia.
    + split; [lia|]. exists ks. split; [done|]. split; [|done].
      eapply Forall_impl; [exact Hbounds|]. simpl. lia.
    + split; [done|]. by exists ks.
Qed.

Lemma strongly_sorted_lookup {A} (R : relation A) (l : list A) (i j : nat) (x y : A) :
  StronglySorted R l → (i < j)%nat → l !! i = Some x → l !! j = Some y → R x y.
Proof.
  intros Hs. revert i j. induction Hs as [|a l Hs IH Hall]; intros i j Hij Hi Hj.
  - by rewrite lookup_nil in Hi.
  - destruct j as [|j]; [lia|]. destruct i as [|i]; simplify_eq/=.
    + eapply Forall_forall in Hall; [done|]. by eapply list_elem_of_lookup_2.
    + apply (IH i j); [lia|done..].
Qed.

(** X14. On a monotonic clock the events come out in arrival order: the
    arrival stamp of an earlier event is at most the pre-decode stamp of
    any later one, also across reconnects. *)
Theorem yields_in_arrival_order (script : list event) (st st' : state)
    (acts : list action) (i j : nat) (earlier later : gmap string value) :
  (∀ a b, (a ≤ b)%nat → monotonic_ns a ≤ monotonic_ns b) →
  run st script = Some (st', acts) →
  (i < j)%nat →
  yields acts !! i = Some earlier → yields acts !! j = Some later →
  ∃ received before received',
    earlier !! "_ts_received_ws" = Some (VInt received)
    ∧ later !! "_ts_before_parse" = Some (VInt before)
    ∧ later !! "_ts_received_ws" = Some (VInt received')
    ∧ received ≤ before ∧ before ≤ received'.
Proof.
  intros Hmono Hrun Hij Hi Hj.
  destruct (run_stamp_indices script st st' acts Hrun) as (_ & ks & Hks & _ & Hsorted).
  destruct (Forall2_lookup_r _ _ _ _ _ Hks Hi) as (k1 & Hk1 & (_ & _ & Hr1)).
  destruct (Forall2_lookup_r _ _ _ _ _ Hks Hj) as (k2 & Hk2 & (Hb2 & _ & Hr2)).
  assert (k1 + 3 ≤ k2)%nat as Hk.
  { by apply (strongly_sorted_lookup _ ks i j k1 k2 Hsorted). }
  eexists _, _, _. split; [exact Hr1|]. split; [exact Hb2|]. split; [exact Hr2|].
  split; apply Hmono; lia.
Qed.

(** X15. A frame that is valid JSON but not an object (an array, a number,
    a string) costs the connection like an undecodable one: the stamp
    assignment raises, the session is closed, the client sleeps 1 and the
    delay becomes 2; the clock was read twice. *)
Theorem non_object_frame_reconnects (st : state) (message : string) :
  reachable st → conn st = Connected → orjson_loads message = Ok JOther →
  step st (Frame message)
  = Some (mkState Connecting 2 (S (S (clock_reads st))), [Close; Sleep 1]).
Proof.
  intros Hreach Hconn Hdec.
  pose proof (reachable_connected_backoff orjson_loads monotonic_ns st Hreach Hconn) as Hb.
  unfold Feed.step, on_message. rewrite Hconn, Hdec, fail_in_session_eq.
  simpl. by rewrite Hb.
Qed.

(** X16. A run made only of successful connections, object frames and
    normal closes never sleeps: after a normal close the client reconnects
    at once, every frame is yielded, and the delay is never raised. *)
Theorem uneventful_session_never_sleeps (script : list event) (st st' : state)
    (acts : list action) :
  Forall (uneventful orjson_loads) script →
  run st script = Some (st', acts) →
  sleeps acts = []
  ∧ length (yields acts) = length (object_frames script)
  ∧ (backoff_time st' = backoff_time st ∨ backoff_time st' = 1).
Proof.
  revert st acts. induction script as [|ev script IH]; intros st acts Hall Hrun.
  - simplify_eq/=. by eauto.
  - apply Forall_cons in Hall as [Hev Hall].
    apply run_cons_inv in Hrun as (st1 & acts1 & acts2 & Hstep & Hrun & ->).
    destruct (IH _ _ Hall Hrun) as (Hs & Hy & Hb).
    unfold sleeps in *. rewrite omap_app, yields_app, length_app, Hs, Hy.
    apply step_cases in Hstep
      as [(_ & -> & -> & ->)|[(_ & (e & ->) & _)|[(_ & (m & d & -> & Hd & ->) & ->)
         |[(_ & Hfail & _)|(_ & -> & -> & ->)]]]]; simpl in *.
    + split; [done|]. split; [done|]. destruct Hb as [Hb | Hb]; by right.
    + done.
    + unfold FeedViews.object_frames. simpl. rewrite Hd. simpl.
      split; [done|]. split; [done|]. done.
    + destruct Hfail as [(m & e & -> & He)|[(m & -> & He)|(e & ->)]];
        simpl in Hev; [destruct Hev as [d Hd]; congruence..|done].
    + done.
Qed.
End FeedMore.

Section FeedMoreExamples.
Import Feed FeedViews.

Example sample_script_runs :
  run sample_loads sample_clock initial sample_script = Some sample_outcome.
Proof. by vm_compute. Qed.

Lemma sleeps_within_cap_witness :
  Forall (λ s, 1 ≤ s ≤ 60) (sleeps sample_outcome.2)
  ∧ 1 ≤ backoff_time sample_outcome.1 ≤ 60.
Proof.
  apply (sleeps_within_cap sample_loads sample_clock sample_script initial).
  - simpl. lia.
  - by vm_compute.
Defined.

Lemma yields_are_object_frames_witness :
  Forall2 carries (object_frames sample_loads sample_script) (yields sample_outcome.2).
Proof.
  apply (yields_are_object_frames sample_loads sample_clock sample_script
           initial sample_outcome.1).
  by vm_compute.
Defined.

Lemma yields_in_arrival_order_witness :
  ∃ received before received',
    sample_event !! "_ts_received_ws" = Some (VInt received)
    ∧ sample_second_event !! "_ts_before_parse" = Some (VInt before)
    ∧ sample_second_event !! "_ts_received_ws" = Some (VInt received')
    ∧ received ≤ before ∧ before ≤ received'.
Proof.
  apply (yields_in_arrival_order sample_loads sample_clock sample_script
           initial sample_outcome.1 sample_outcome.2 0 1).
  - exact sample_clock_monotonic.
  - by vm_compute.
  - lia.
  - reflexivity.
  - reflexivity.
Defined.

Lemma non_object_frame_reconnects_witness :
  step sample_loads sample_clock (mkState Connected 1 0) (Frame "[]")
  = Some (mkState Connecting 2 2, [Close; Sleep 1]).
Proof.
  apply (non_object_frame_reconnects sample_loads sample_clock
           (mkState Connected 1 0) "[]").
  - exact sample_connected_reachable.
  - reflexivity.
  - reflexivity.
Defined.

Lemma sample_quiet_script_uneventful :
  Forall (uneventful sample_loads) sample_quiet_script.
Proof. repeat constructor; by eexists. Defined.

Lemma uneventful_session_never_sleeps_witness :
  sleeps sample_quiet_outcome.2 = []
  ∧ length (yields sample_quiet_outcome.2)
    = length (object_frames sample_loads sample_quiet_script)
  ∧ (backoff_time sample_quiet_outcome.1 = backoff_time initial
     ∨ backoff_time sample_quiet_outcome.1 = 1).
Proof.
  apply (uneventful_session_never_sleeps sample_loads sample_clock
           sample_quiet_script initial sample_quiet_outcome.1 sample_quiet_outcome.2).
  - exact sample_quiet_script_uneventful.
  - by vm_compute.
Defined.
End FeedMoreExamples.

(** ** plot_live.py: both collectors and the plot data *)

Section DequeFacts.
Import Deque.
Context {A : Type}.

Lemma length_append_maxlen (maxlen : nat) (x : A) (dq : list A) :
  length (append_maxlen maxlen x dq) = Nat.min (S (length dq)) maxlen.
Proof. unfold append_maxlen. rewrite length_drop, length_app. cbn [length]. lia. Qed.

Lemma length_set_last (x : A) (dq : list A) : length (set_last x dq) = length dq.
Proof. unfold set_last. destruct (is_empty dq); [done|apply length_insert]. Qed.

Lemma append_maxlen_snoc (maxlen : nat) (x : A) (dq : list A) :
  (0 < maxlen)%nat →
  append_maxlen maxlen x dq = last_n (maxlen - 1) dq ++ [x].
Proof.
  intros Hm. unfold append_maxlen, last_n. rewrite length_app. simpl.
  rewrite drop_app_le by lia. f_equal. f_equal. lia.
Qed.

Lemma set_last_lookup (x : A) (dq : list A) (i : nat) :
  (S i < length dq)%nat → set_last x dq !! i = dq !! i.
Proof.
  intros Hi. unfold set_last. destruct (is_empty dq); [done|].
  apply list_lookup_insert_ne. lia.
Qed.

Lemma last_n_snoc (n : nat) (x : A) (l : list A) :
  (0 < n)%nat → last_n n (l ++ [x]) = last_n (n - 1) l ++ [x].
Proof. apply append_maxlen_snoc. Qed.

Lemma last_n_last_n (n m : nat) (l : list A) :
  (n ≤ m)%nat → last_n n (last_n m l) = last_n n l.
Proof.
  intros Hnm. unfold last_n. rewrite length_drop, drop_drop. f_equal. lia.
Qed.
End DequeFacts.

Section CollectorFacts.
Import PlotLive Deque Stmt PlotLiveTrades.
Variable float_of_str : string -> option Qc.

#[local] Abbreviation on_book_ticker := (PlotLive.on_book_ticker float_of_str).
#[local] Abbreviation data_collector_trades := (PlotLiveTrades.data_collector_trades float_of_str).
#[local] Abbreviation handle := (PlotLiveTrades.handle float_of_str).
#[local] Abbreviation handle_all := (PlotLiveTrades.handle_all float_of_str).

(** The book-ticker handler either raises with the buffers as they were,
    or appends one sample to each of them. *)
Lemma on_book_ticker_outcome (msg : gmap string value) (b : buffers) :
  (∃ e, on_book_ticker msg b = (Raise e, b))
  ∨ (∃ t m s i,
       on_book_ticker msg b
       = (Ok (),
          mkBuffers (append t (timestamps b)) (append m (mid_prices b))
            (append s (spreads b)) (append i (imbalances b))
            (append (last_or_nan (vwaps b)) (vwaps b))
            (append (last_or_nan (trade_volumes_per_sec b)) (trade_volumes_per_sec b))
            (append NaN (last_trade_prices b)))).
Proof.
  unfold PlotLive.on_book_ticker.
  repeat match goal with
  | |- (∃ e, PlotLive.seq_stmt (PlotLive.eval ?r) ?k ?s = (Raise e, ?s)) ∨ _ =>
      destruct (eval_seq_cases r k s) as [(? & ? & ->)|(? & ? & ->)];
      [|by left; eauto]
  end.
  right. by eexists _, _, _, _.
Qed.

Lemma length_append (A : Type) (x : A) (dq : list A) :
  length (append x dq) = Nat.min (S (length dq)) MAX_DATAPOINTS.
Proof. apply (length_append_maxlen MAX_DATAPOINTS). Qed.

Lemma on_book_ticker_aligned (msg : gmap string value) (b : buffers) :
  aligned b → aligned (on_book_ticker msg b).2.
Proof.
  intros Hb.
  destruct (on_book_ticker_outcome msg b) as [(e & ->)|(t & m & s & i & ->)]; [done|].
  destruct Hb as (H1 & H2 & H3 & H4 & H5 & H6 & H7).
  unfold aligned. simpl. rewrite !length_append.
  unfold MAX_DATAPOINTS in *. lia.
Qed.

(** The trade handler raises before it touches anything, or raises after
    it has appended the message to [all_trades], or replaces the last
    entry of the three trade-driven buffers. *)
Lemma data_collector_trades_outcome (msg : gmap string value) (s : collected) :
  (∃ e, data_collector_trades msg s = (Raise e, s))
  ∨ (∃ e, data_collector_trades msg s
          = (Raise e,
             mkCollected (plotted s) (append_maxlen MAX_TRADES msg (all_trades s))))
  ∨ (∃ x y z,
       data_collector_trades msg s
       = (Ok (),
          mkCollected
            (mkBuffers (timestamps (plotted s)) (mid_prices (plotted s))
               (spreads (plotted s)) (imbalances (plotted s))
               (set_last x (vwaps (plotted s)))
               (set_last y (trade_volumes_per_sec (plotted s)))
               (set_last z (last_trade_prices (plotted s))))
            (append_maxlen MAX_TRADES msg (all_trades s)))).
Proof.
  unfold PlotLiveTrades.data_collector_trades, seq_stmt, eval, eval_on_trades, update_plotted, update.
  destruct (getitem msg "_ts_received_ws") as [stamp|e]; [|by left; eauto].
  destruct (getitem msg "p") as [vp|e]; [|by left; eauto].
  destruct (float float_of_str vp) as [p|e]; [|by left; eauto].
  cbn [all_trades plotted].
  destruct (Metrics.calculate_vwap _ _ _) as [vwap|e]; [|by right; left; eauto].
  destruct (trade_volume_per_second_value _ _ _ _) as [vol|e]; [|by right; left; eauto].
  right; right. by eexists _, _, _.
Qed.

Lemma data_collector_trades_plotted (msg : gmap string value) (s : collected) :
  aligned (plotted s) → (length (all_trades s) ≤ MAX_TRADES)%nat →
  aligned (plotted (data_collector_trades msg s).2)
  ∧ (length (all_trades (data_collector_trades msg s).2) ≤ MAX_TRADES)%nat.
Proof.
  intros Hb Ht.
  destruct (data_collector_trades_outcome msg s) as [(e & ->)|[(e & ->)|(x & y & z & ->)]];
    cbn [snd plotted all_trades]; rewrite ?length_append_maxlen.
  - done.
  - split; [done|lia].
  - split; [|lia]. unfold aligned in *. simpl. by rewrite !length_set_last.
Qed.

Lemma handle_aligned (a : arrival) (s : collected) :
  aligned (plotted s) → (length (all_trades s) ≤ MAX_TRADES)%nat →
  aligned (plotted (handle a s)) ∧ (length (all_trades (handle a s)) ≤ MAX_TRADES)%nat.
Proof.
  intros Hb Ht. destruct a as [msg|msg]; simpl.
  - split; [by apply on_book_ticker_aligned|done].
  - by apply data_collector_trades_plotted.
Qed.

Lemma handle_all_aligned (arrivals : list arrival) (s : collected) :
  aligned (plotted s) → (length (all_trades s) ≤ MAX_TRADES)%nat →
  aligned (plotted (handle_all arrivals s))
  ∧ (length (all_trades (handle_all arrivals s)) ≤ MAX_TRADES)%nat.
Proof.
  revert s. induction arrivals as [|a arrivals IH]; intros s Hb Ht; [done|].
  simpl. destruct (handle_aligned a s Hb Ht). by apply IH.
Qed.

(** X17. Whatever messages the two collectors of [plot_live.py] handle, in
    whatever order and whether or not a handler raises, the seven plotted
    buffers keep one common length of at most 200 and [all_trades] holds
    at most 5000 trades. *)
Theorem collectors_keep_buffers_aligned (arrivals : list arrival) :
  aligned (plotted (handle_all arrivals nothing_collected))
  ∧ (length (all_trades (handle_all arrivals nothing_collected)) ≤ MAX_TRADES)%nat.
Proof.
  apply handle_all_aligned.
  - unfold aligned, MAX_DATAPOINTS. simpl. lia.
  - unfold MAX_TRADES. simpl. lia.
Qed.

(** *** [get_plot_data] *)

Lemma get_plot_data_full (dq : list sample) :
  get_plot_data (length dq) dq = dq.
Proof.
  unfold get_plot_data. destruct dq as [|x l]; [done|].
  simpl is_empty. cbv iota.
  rewrite (proj2 (Nat.ltb_ge _ _)) by lia. by rewrite firstn_all.
Qed.

(** X18. [get_plot_data] returns exactly [current_len] points: the points
    of the buffer in order, cut at [current_len], then the buffer's last
    point repeated, or NaN throughout when the buffer is empty. *)
Theorem get_plot_data_shape (current_len : nat) (dq : list sample) :
  length (get_plot_data current_len dq) = current_len
  ∧ (∀ i, (i < current_len)%nat →
          get_plot_data current_len dq !! i
          = Some (default (last_or_nan dq) (dq !! i))).
Proof.
  unfold get_plot_data. destruct dq as [|x l].
  - simpl. split; [by rewrite length_replicate|].
    intros i Hi. by rewrite lookup_replicate_2.
  - simpl is_empty. cbv iota.
    destruct (length (x :: l) <? current_len)%nat eqn:E.
    + apply Nat.ltb_lt in E. split.
      * rewrite length_take, length_app, length_replicate. lia.
      * intros i Hi. rewrite lookup_take_lt by done.
        destruct (decide (i < length (x :: l))%nat) as [Hlt|Hge].
        -- rewrite lookup_app_l by done.
           destruct (lookup_lt_is_Some_2 (x :: l) i Hlt) as [y Hy]. by rewrite Hy.
        -- rewrite lookup_app_r by lia.
           rewrite lookup_replicate_2 by lia.
           by rewrite (lookup_ge_None_2 (x :: l) i) by lia.
    + apply Nat.ltb_ge in E. split.
      * rewrite length_take. lia.
      * intros i Hi. rewrite lookup_take_lt by done.
        destruct (lookup_lt_is_Some_2 (x :: l) i) as [y Hy]; [lia|]. by rewrite Hy.
Qed.

(** X19. On the buffers the collectors build, [get_plot_data] has nothing
    to pad or cut: for each of the six plotted series it returns the
    buffer itself. *)
Theorem plot_data_needs_no_padding (arrivals : list arrival) :
  let b := plotted (handle_all arrivals nothing_collected) in
  let current_len := length (timestamps b) in
  get_plot_data current_len (mid_prices b) = mid_prices b
  ∧ get_plot_data current_len (last_trade_prices b) = last_trade_prices b
  ∧ get_plot_data current_len (spreads b) = spreads b
  ∧ get_plot_data current_len (imbalances b) = imbalances b
  ∧ get_plot_data current_len (vwaps b) = vwaps b
  ∧ get_plot_data current_len (trade_volumes_per_sec b) = trade_volumes_per_sec b.
Proof.
  intros b current_len.
  destruct (handle_all_aligned arrivals nothing_collected)
    as [(H1 & H2 & H3 & H4 & H5 & H6 & _) _].
  { unfold aligned, MAX_DATAPOINTS. simpl. lia. }
  { unfold MAX_TRADES. simpl. lia. }
  fold b in H1, H2, H3, H4, H5, H6. unfold current_len.
  rewrite <- H1 at 1. rewrite <- H6 at 1. rewrite <- H2 at 1.
  rewrite <- H3 at 1. rewrite <- H4 at 1. rewrite <- H5 at 1.
  by rewrite !get_plot_data_full.
Qed.

(** X20. The trade handler adds no point to the plot and changes none but
    the newest of [vwaps], [trade_volumes_per_sec] and
    [last_trade_prices]; the four book-ticker series are untouched, and
    while no book-ticker message has come the trade leaves the plot empty. *)
Theorem trade_handler_touches_only_newest_point (msg : gmap string value)
    (s : collected) :
  timestamps (plotted (data_collector_trades msg s).2) = timestamps (plotted s)
  ∧ mid_prices (plotted (data_collector_trades msg s).2) = mid_prices (plotted s)
  ∧ spreads (plotted (data_collector_trades msg s).2) = spreads (plotted s)
  ∧ imbalances (plotted (data_collector_trades msg s).2) = imbalances (plotted s)
  ∧ length (vwaps (plotted (data_collector_trades msg s).2)) = length (vwaps (plotted s))
  ∧ length (trade_volumes_per_sec (plotted (data_collector_trades msg s).2))
    = length (trade_volumes_per_sec (plotted s))
  ∧ length (last_trade_prices (plotted (data_collector_trades msg s).2))
    = length (last_trade_prices (plotted s))
  ∧ ∀ i,
      ((S i < length (vwaps (plotted s)))%nat →
         vwaps (plotted (data_collector_trades msg s).2) !! i = vwaps (plotted s) !! i)
      ∧ ((S i < length (trade_volumes_per_sec (plotted s)))%nat →
         trade_volumes_per_sec (plotted (data_collector_trades msg s).2) !! i
         = trade_volumes_per_sec (plotted s) !! i)
      ∧ ((S i < length (last_trade_prices (plotted s)))%nat →
         last_trade_prices (plotted (data_collector_trades msg s).2) !! i
         = last_trade_prices (plotted s) !! i).
Proof.
  destruct (data_collector_trades_outcome msg s) as [(e & ->)|[(e & ->)|(x & y & z & ->)]];
    cbn [snd plotted timestamps mid_prices spreads imbalances vwaps
         trade_volumes_per_sec last_trade_prices];
    rewrite ?length_set_last; repeat split; try done;
    intros; by apply set_last_lookup.
Qed.

Lemma volume_scan_value_int (cutoff : Z) (reversed_trades : list (gmap string value))
    (volume : Qc) :
  Forall (λ t, ∃ z, t !! "T" = Some (VInt z)) reversed_trades →
  volume_scan_value float_of_str (VInt cutoff) reversed_trades volume
  = Metrics.volume_scan float_of_str cutoff reversed_trades volume.
Proof.
  intros Hall. revert volume.
  induction Hall as [|t l [z Hz] Hl IH]; intros volume; [done|].
  simpl. unfold getitem. rewrite Hz. simpl.
  destruct (cutoff <=? z * 1000000)%Z; [|done].
  destruct (Metrics.trade_qty float_of_str t); [simpl|done]. apply IH.
Qed.

(** With an integer arrival stamp, as the client writes it, the call of
    the collector is [calculate_trade_volume_per_second] at that integer. *)
Lemma trade_volume_per_second_value_int (trades : list (gmap string value))
    (current_time_ns window_seconds : Z) :
  Forall (λ t, ∃ z, t !! "T" = Some (VInt z)) trades →
  trade_volume_per_second_value float_of_str trades (VInt current_time_ns) window_seconds
  = Metrics.calculate_trade_volume_per_second float_of_str trades
      current_time_ns window_seconds.
Proof.
  intros Hall. unfold trade_volume_per_second_value,
    Metrics.calculate_trade_volume_per_second.
  destruct (is_empty trades || (window_seconds <=? 0)%Z); [done|].
  simpl. apply volume_scan_value_int. by apply Forall_reverse.
Qed.

(** *** Failures of the trade handler *)

Lemma sum_gen_snoc_raise {B} (f : B → result Qc) (l : list B) (x : B) (e : exn)
    (acc : Qc) :
  f x = Raise e → ∃ e', sum_gen f (l ++ [x]) acc = Raise e'.
Proof.
  intros Hx. revert acc. induction l as [|y l IH]; intros acc; simpl.
  - rewrite Hx. by eexists.
  - destruct (f y) as [v|e']; [apply IH|by eexists].
Qed.

(** X21. A trade message without arrival stamp or without price is
    rejected by the trade handler with an exception before anything is
    touched: the plotted buffers and [all_trades] are as before. *)
Theorem trade_without_price_rejected (msg : gmap string value) (s : collected) :
  msg !! "_ts_received_ws" = None ∨ msg !! "p" = None →
  ∃ e, data_collector_trades msg s = (Raise e, s).
Proof.
  intros Hmissing.
  unfold PlotLiveTrades.data_collector_trades, seq_stmt, eval, getitem.
  destruct (msg !! "_ts_received_ws") as [stamp|] eqn:Hs; [|by eauto].
  destruct Hmissing as [?|Hp]; [done|]. rewrite Hp. by eauto.
Qed.

(** X22. A trade message whose price parses but whose quantity does not is
    appended to [all_trades] before [calculate_vwap] raises: the plotted
    buffers are as before, the trade history is not. *)
Theorem trade_without_quantity_is_kept (msg : gmap string value) (s : collected)
    (stamp vp : value) (p : Qc) (e : exn) :
  msg !! "_ts_received_ws" = Some stamp →
  msg !! "p" = Some vp → float float_of_str vp = Ok p →
  Metrics.trade_qty float_of_str msg = Raise e →
  ∃ e', data_collector_trades msg s
        = (Raise e',
           mkCollected (plotted s) (append_maxlen MAX_TRADES msg (all_trades s))).
Proof.
  intros Hs Hp Hfp Hq.
  unfold PlotLiveTrades.data_collector_trades, seq_stmt, eval, eval_on_trades, update, getitem.
  rewrite Hs, Hp, Hfp. cbn [all_trades plotted].
  assert (∃ e', Metrics.calculate_vwap float_of_str
                  (append_maxlen MAX_TRADES msg (all_trades s)) 100 = Raise e')
    as [e' ->]; [|by eauto].
  rewrite append_maxlen_snoc by (unfold MAX_TRADES; lia).
  set (kept := last_n (MAX_TRADES - 1) (all_trades s)).
  unfold Metrics.calculate_vwap.
  assert (is_empty (kept ++ [msg]) = false) as -> by (by destruct kept).
  simpl orb. cbv iota.
  rewrite slice_from_last by lia.
  rewrite drop_app_le by (rewrite length_app; simpl; lia).
  assert (Metrics.trade_value float_of_str msg = Raise e) as Hv.
  { unfold Metrics.trade_value, Metrics.trade_qty, getitem in *.
    rewrite Hp. simpl. rewrite Hfp. simpl.
    destruct (msg !! "q") as [vq|]; simpl in *; [|done].
    by destruct (float float_of_str vq). }
  destruct (sum_gen_snoc_raise (Metrics.trade_value float_of_str)
              (drop (length (kept ++ [msg]) - Z.to_nat 100) kept) msg e 0%Qc Hv)
    as [e' ->].
  by eexists.
Qed.
End CollectorFacts.

Section CollectorExamples.
Import PlotLive Deque Stmt PlotLiveTrades.

Lemma trade_without_price_rejected_witness :
  ∃ e, data_collector_trades float_of_decimal (delete "p" sample_trade_event)
         sample_collected
       = (Raise e, sample_collected).
Proof.
  apply (trade_without_price_rejected float_of_decimal
           (delete "p" sample_trade_event) sample_collected).
  right. reflexivity.
Defined.

Lemma trade_without_quantity_is_kept_witness :
  ∃ e', data_collector_trades float_of_decimal (delete "q" sample_trade_event)
          sample_collected
        = (Raise e',
           mkCollected (plotted sample_collected)
             (append_maxlen MAX_TRADES (delete "q" sample_trade_event)
                (all_trades sample_collected))).
Proof.
  apply (trade_without_quantity_is_kept float_of_decimal
           (delete "q" sample_trade_event) sample_collected
           (VInt 1500) (VStr "100.05") (Q2Qc (2001 # 20)) (KeyError "q")).
  - reflexivity.
  - reflexivity.
  - vm_compute. apply Ok_Qc_eq. by vm_compute.
  - reflexivity.
Defined.

(** The trade of the sample replaced the newest VWAP and volume. *)
Example sample_collected_plotted :
  length (timestamps (plotted sample_collected)) = 1%nat
  ∧ vwaps (plotted sample_collected) = [Num (Q2Qc (2001 # 20))]
  ∧ length (all_trades sample_collected) = 1%nat.
Proof.
  vm_compute. split; [done|]. split; [|done].
  do 2 f_equal. by apply Qc_is_canon.
Qed.
End CollectorExamples.

(** ** latency_live.py *)

Section LatencyLiveFacts.
Import Deque Stmt LatencyLive.
#[local] Open Scope Qc_scope.

(** The handler raises with the buffers as they were, or appends the
    latency in microseconds and the arrival time in seconds. *)
Lemma latency_data_collector_outcome (msg : gmap string value) (b : buffers) :
  (∃ e, latency_data_collector msg b = (Raise e, b))
  ∨ (∃ delta_us wall_clock,
       latency_data_collector msg b
       = (Ok (),
          mkBuffers (append_maxlen MAX_DELTAS delta_us (latency_deltas_us b))
            (append_maxlen MAX_DATAPOINTS wall_clock (wall_clock_times b))
            (append_maxlen MAX_DATAPOINTS delta_us (rolling_latency_plot_data b)))).
Proof.
  unfold latency_data_collector, seq_stmt, eval, update.
  destruct (getitem msg "T") as [t|e]; [|by left; eauto].
  destruct (mul_int t 1000000) as [t_ns|e]; [|by left; eauto].
  destruct (getitem msg "_ts_received_ws") as [local|e]; [|by left; eauto].
  destruct (sub local t_ns) as [delta_ns|e] eqn:Hsub; [|by left; eauto].
  destruct (div_float delta_ns (Qc_of_Z 1000)) as [delta_us|e]; [|by left; eauto].
  cbn [latency_deltas_us wall_clock_times rolling_latency_plot_data].
  assert (∃ w, div_float local (Qc_of_Z 1000000000) = Ok w) as [w ->].
  { destruct local, t_ns; simplify_eq/=; by eexists. }
  right. by eexists _, _.
Qed.

(** X23. When the latency handler raises (missing [T] or stamp, a value
    that is no number), all three of its buffers are as before: the delta
    ring is never ahead of the plot data. *)
Theorem latency_failure_keeps_buffers (msg : gmap string value) (b b' : buffers)
    (e : exn) :
  latency_data_collector msg b = (Raise e, b') → b' = b.
Proof.
  intros Hraise.
  destruct (latency_data_collector_outcome msg b) as [(e' & He)|(d & w & Hok)];
    rewrite Hraise in *; by simplify_eq.
Qed.

Lemma latency_data_collector_rolling_is_tail (msg : gmap string value) (b : buffers) :
  rolling_is_tail b → rolling_is_tail (latency_data_collector msg b).2.
Proof.
  intros (Hroll & Hwall & Hlen).
  destruct (latency_data_collector_outcome msg b) as [(e & ->)|(d & w & ->)]; [done|].
  unfold rolling_is_tail. cbn [snd latency_deltas_us wall_clock_times rolling_latency_plot_data].
  rewrite !length_append_maxlen, Hwall.
  split; [|split; [done|lia]].
  rewrite Hroll.
  rewrite (append_maxlen_snoc MAX_DATAPOINTS) by (unfold MAX_DATAPOINTS; lia).
  rewrite (append_maxlen_snoc MAX_DELTAS) by (unfold MAX_DELTAS; lia).
  rewrite last_n_snoc by (unfold MAX_DATAPOINTS; lia).
  by rewrite !last_n_last_n by (unfold MAX_DATAPOINTS, MAX_DELTAS; lia).
Qed.

(** X24. After any sequence of messages the rolling plot data of
    [latency_live.py] is the last 200 entries of the delta ring, there is
    one wall-clock time per plotted entry, and the ring holds at most 5000
    deltas. *)
Theorem rolling_plot_is_tail_of_ring (msgs : list (gmap string value)) :
  rolling_is_tail (latency_data_collector_all msgs no_data).
Proof.
  assert (∀ b, rolling_is_tail b → rolling_is_tail (latency_data_collector_all msgs b)) as Hgen.
  { induction msgs as [|msg msgs IH]; intros b Hb; [done|].
    simpl. apply IH. by apply latency_data_collector_rolling_is_tail. }
  apply Hgen. unfold rolling_is_tail, MAX_DELTAS. simpl. split; [done|]. split; [done|lia].
Qed.

(** X25. On a trade event with integer [T] and integer arrival stamp the
    latency handler records [(received - T * 1_000_000) / 1000]
    microseconds, one thousandth of the [latency_ns] of
    [feed.main_trades], together with the arrival time in seconds. *)
Theorem latency_recorded (msg : gmap string value) (b : buffers) (t received : Z) :
  msg !! "T" = Some (VInt t) →
  msg !! "_ts_received_ws" = Some (VInt received) →
  Feed.latency_ns msg = Ok (VInt (received - t * 1000000))
  ∧ latency_data_collector msg b
    = (Ok (),
       mkBuffers
         (append_maxlen MAX_DELTAS
            (Qc_of_Z (received - t * 1000000) / Qc_of_Z 1000) (latency_deltas_us b))
         (append_maxlen MAX_DATAPOINTS
            (Qc_of_Z received / Qc_of_Z 1000000000) (wall_clock_times b))
         (append_maxlen MAX_DATAPOINTS
            (Qc_of_Z (received - t * 1000000) / Qc_of_Z 1000)
            (rolling_latency_plot_data b))).
Proof.
  intros HT Hr. split.
  - unfold Feed.latency_ns, getitem. by rewrite Hr, HT.
  - unfold latency_data_collector, seq_stmt, eval, update, getitem. by rewrite HT, Hr.
Qed.
End LatencyLiveFacts.

Section LatencyLiveExamples.
Import Deque Stmt LatencyLive.

Lemma latency_failure_keeps_buffers_witness :
  latency_data_collector (delete "T" PlotLiveTrades.sample_trade_event) sample_latency
  = (Raise (KeyError "T"), sample_latency)
  ∧ sample_latency = sample_latency.
Proof.
  split; [reflexivity|].
  apply (latency_failure_keeps_buffers (delete "T" PlotLiveTrades.sample_trade_event)
           sample_latency sample_latency (KeyError "T")).
  reflexivity.
Defined.

Lemma latency_recorded_witness :
  Feed.latency_ns PlotLiveTrades.sample_trade_event = Ok (VInt (1500 - 1699999999700 * 1000000))
  ∧ latency_data_collector PlotLiveTrades.sample_trade_event no_data
    = (Ok (),
       mkBuffers
         (append_maxlen MAX_DELTAS
            (Qc_of_Z (1500 - 1699999999700 * 1000000) / Qc_of_Z 1000)%Qc
            (latency_deltas_us no_data))
         (append_maxlen MAX_DATAPOINTS
            (Qc_of_Z 1500 / Qc_of_Z 1000000000)%Qc (wall_clock_times no_data))
         (append_maxlen MAX_DATAPOINTS
            (Qc_of_Z (1500 - 1699999999700 * 1000000) / Qc_of_Z 1000)%Qc
            (rolling_latency_plot_data no_data))).
Proof.
  apply (latency_recorded PlotLiveTrades.sample_trade_event no_data 1699999999700 1500).
  - reflexivity.
  - reflexivity.
Defined.
End LatencyLiveExamples.

(** ** The order-book store, as the tests use it *)

Section OrderBookMore.
Import OrderBook.
#[local] Open Scope Qc_scope.

(** X26. What [test_add_bid], [test_update_bid_quantity],
    [test_remove_bid] and their ask twins check, on any book of the
    modelled store: after an update with a positive quantity the level
    reads back that quantity; with a quantity of zero or below the level
    is gone and reads 0; every other level, on both sides, is untouched. *)
Theorem upsert_then_lookup (s : side) (price quantity : Qc) (st : store) :
  (0 < quantity →
     quantity_at s price (upsert s price quantity st) = quantity
     ∧ levels s (upsert s price quantity st) !! price = Some quantity)
  ∧ (quantity ≤ 0 →
     quantity_at s price (upsert s price quantity st) = 0
     ∧ levels s (upsert s price quantity st) !! price = None)
  ∧ (∀ s' price', (s' ≠ s ∨ price' ≠ price) →
       levels s' (upsert s price quantity st) !! price' = levels s' st !! price').
Proof.
  assert (∀ m : gmap Qc Qc,
    (0 < quantity → upsert_level price quantity m !! price = Some quantity)
    ∧ (quantity ≤ 0 → upsert_level price quantity m !! price = None)
    ∧ (∀ price', price' ≠ price →
         upsert_level price quantity m !! price' = m !! price')) as Hlevel.
  { intros m. unfold upsert_level. case_bool_decide as Hq.
    - split; [intros Hlt; by apply Qclt_nge in Hlt|].
      split; [intros _; apply lookup_delete_eq|].
      intros price' Hne. by apply lookup_delete_ne.
    - split; [intros _; apply lookup_insert_eq|].
      split; [done|]. intros price' Hne. by apply lookup_insert_ne. }
  unfold quantity_at.
  split; [|split].
  - intros Hq. destruct s; simpl; destruct (Hlevel (bids st)) as (H1 & _ & _);
      destruct (Hlevel (asks st)) as (H2 & _ & _); rewrite ?H1, ?H2; done.
  - intros Hq. destruct s; simpl; destruct (Hlevel (bids st)) as (_ & H1 & _);
      destruct (Hlevel (asks st)) as (_ & H2 & _); rewrite ?H1, ?H2; done.
  - intros s' price' Hne.
    destruct s, s'; simpl; try done;
      [destruct (Hlevel (bids st)) as (_ & _ & H)|destruct (Hlevel (asks st)) as (_ & _ & H)];
      apply H; by destruct Hne.
Qed.

Lemma extremum_max_unique (m : gmap Qc Qc) (c : Qc) :
  is_Some (m !! c) → (∀ p, is_Some (m !! p) → p ≤ c) → extremum max_price m = c.
Proof.
  intros Hc Hub.
  destruct (extremum_max_spec m c Hc) as [Hbest Hle].
  apply Qcle_antisym; [by apply Hub|done].
Qed.

(** X27. What [test_best_bid_is_highest] checks, on any book of the
    modelled store: after a bid update with a positive quantity the best
    bid is the new price on an empty bid side and the larger of the new
    price and the old best bid otherwise. *)
Theorem best_bid_after_update (price quantity : Qc) (st : store) :
  0 < quantity →
  (bids st = ∅ → best_bid (update_bid price quantity st) = price)
  ∧ (bids st ≠ ∅ →
     best_bid (update_bid price quantity st) = max_price price (best_bid st)).
Proof.
  intros Hq. unfold best_bid, update_bid. simpl. unfold upsert_level.
  rewrite bool_decide_eq_false_2 by (by apply Qclt_nge).
  split.
  - intros ->. apply extremum_max_unique.
    + rewrite lookup_insert_eq. by eexists.
    + intros p [q Hp]. apply lookup_insert_Some in Hp as [[<- _]|[_ Hp]];
        [apply Qcle_refl|by rewrite lookup_empty in Hp].
  - intros Hne.
    assert (∃ p0, is_Some (bids st !! p0)) as [p0 Hp0].
    { destruct (map_choose _ Hne) as (p0 & q0 & H0). exists p0. by eexists. }
    destruct (extremum_max_spec (bids st) p0 Hp0) as [Hbest _].
    destruct (max_price_cases price (extremum max_price (bids st)))
      as (Hcase & Hle1 & Hle2).
    apply extremum_max_unique.
    + destruct Hcase as [-> | ->].
      * rewrite lookup_insert_eq. by eexists.
      * destruct (decide (price = extremum max_price (bids st))) as [<-|Hd].
        -- rewrite lookup_insert_eq. by eexists.
        -- by rewrite lookup_insert_ne.
    + intros p [q Hp]. apply lookup_insert_Some in Hp as [[<- _]|[_ Hp]]; [done|].
      eapply Qcle_trans; [|exact Hle2].
      by apply (extremum_max_spec (bids st) p).
Qed.
End OrderBookMore.

Section OrderBookMoreExamples.
Import OrderBook.
#[local] Open Scope Qc_scope.

Lemma best_bid_after_update_witness :
  (bids sample_book = ∅ →
     best_bid (update_bid (Qc_of_Z 99) (Qc_of_Z 2) sample_book) = Qc_of_Z 99)
  ∧ (bids sample_book ≠ ∅ →
     best_bid (update_bid (Qc_of_Z 99) (Qc_of_Z 2) sample_book)
     = max_price (Qc_of_Z 99) (best_bid sample_book)).
Proof.
  apply (best_bid_after_update (Qc_of_Z 99) (Qc_of_Z 2) sample_book).
  by vm_compute.
Defined.
End OrderBookMoreExamples.
